(** * Grimoire: the FB2 metadata extractor and the reader's paginator

    A shallow embedding of [fb2_utils.py] (the FictionBook extractor) and of
    the pagination and page-navigation methods of [MainWindow] in [main.py],
    with the properties the specification states about them. *)

From Stdlib Require Import ZArith List Bool Ascii String Lia.
From Stdlib Require Import Strings.Byte.
From Stdlib Require Import SpecFloat.
Import ListNotations.

#[local] Open Scope Z_scope.

(* ================================================================== *)
(** * Python values and builtins used by the two modules *)
(* ================================================================== *)

Module Py.

(** A Python [str] is a sequence of code points; the model keeps the code
    points below 256, one [ascii] each. *)
Definition pystr := list ascii.

(** String literals of the source. *)
Definition py (s : string) : pystr := list_ascii_of_string s.

(** [len(s)] *)
Definition len {A : Type} (s : list A) : Z := Z.of_nat (List.length s).

(** Truthiness of a string: [if s:] *)
Definition truthy (s : pystr) : bool :=
  match s with [] => false | _ :: _ => true end.

(** Truthiness of an optional string ([None] and the empty string are falsy). *)
Definition truthy_opt (o : option pystr) : bool :=
  match o with Some s => truthy s | None => false end.

(** [a or b] on optional strings. *)
Definition py_or (a b : option pystr) : option pystr :=
  if truthy_opt a then a else b.

(** [str.isspace] on one code point, for the code points below 256:
    U+0009..U+000D, U+001C..U+001F, U+0020, U+0085 and U+00A0. *)
Definition isspace (c : ascii) : bool :=
  let n := Z.of_nat (nat_of_ascii c) in
  ((9 <=? n) && (n <=? 13)) || ((28 <=? n) && (n <=? 32))
  || (n =? 133) || (n =? 160).

(** [s.lstrip()] *)
Fixpoint lstrip (s : pystr) : pystr :=
  match s with
  | [] => []
  | c :: r => if isspace c then lstrip r else s
  end.

(** [s.rstrip()] *)
Definition rstrip (s : pystr) : pystr := rev (lstrip (rev s)).

(** [s.strip()] *)
Definition strip (s : pystr) : pystr := rstrip (lstrip s).

(** [s.lstrip(chars)] for a one-character [chars]. *)
Fixpoint lstrip_char (ch : ascii) (s : pystr) : pystr :=
  match s with
  | [] => []
  | c :: r => if Ascii.eqb c ch then lstrip_char ch r else s
  end.

(** [sep.join(parts)] *)
Fixpoint join (sep : pystr) (parts : list pystr) : pystr :=
  match parts with
  | [] => []
  | [p] => p
  | p :: rest => p ++ sep ++ join sep rest
  end.

(** Index adjustment of [str.find]/[str.rfind] (CPython's ADJUST_INDICES). *)
Definition adjust_start (n i : Z) : Z :=
  if i <? 0 then Z.max 0 (i + n) else i.

Definition adjust_end (n j : Z) : Z :=
  if n <? j then n else if j <? 0 then Z.max 0 (j + n) else j.

(** Left-to-right scan remembering the last position in [[lo, hi)] that
    holds [ch]; [k] is the position of the head of [s]. *)
Fixpoint rfind_scan (ch : ascii) (s : pystr) (k lo hi best : Z) : Z :=
  match s with
  | [] => best
  | c :: r =>
      rfind_scan ch r (k + 1) lo hi
        (if (lo <=? k) && (k <? hi) && Ascii.eqb c ch then k else best)
  end.

(** [s.rfind(ch, start, end)] for a one-character [ch]: the highest index
    in [[start, end)] holding [ch], or [-1]. *)
Definition rfind (ch : ascii) (s : pystr) (start end_ : Z) : Z :=
  rfind_scan ch s 0 (adjust_start (len s) start) (adjust_end (len s) end_) (-1).

(** Bound adjustment of a slice [s[i:j]] (PySlice_AdjustIndices, step 1). *)
Definition adjust_slice (n i : Z) : Z :=
  if i <? 0 then Z.max 0 (i + n) else Z.min i n.

(** [s[i:j]] *)
Definition slice {A : Type} (s : list A) (i j : Z) : list A :=
  let n := len s in
  let a := adjust_slice n i in
  let b := adjust_slice n j in
  firstn (Z.to_nat (b - a)) (skipn (Z.to_nat a) s).

(** [s[i:]] *)
Definition slice_from {A : Type} (s : list A) (i : Z) : list A :=
  slice s i (len s).

(** [s[:j]] *)
Definition slice_to {A : Type} (s : list A) (j : Z) : list A :=
  slice s 0 j.

(** [max(a, b)] and [min(a, b)] on integers. *)
Definition max_int (a b : Z) : Z := if a <? b then b else a.
Definition min_int (a b : Z) : Z := if b <? a then b else a.

(** What a call gives back: a value, or an exception that escapes it. *)
Inductive result (A : Type) : Type :=
| Returned (a : A)
| Raised.

Arguments Returned {A} a.
Arguments Raised {A}.

(** [try: body / except Exception: handler], then the continuation. *)
Definition try_except {A B : Type}
  (body : result A) (handler : B) (k : A -> B) : B :=
  match body with
  | Returned a => k a
  | Raised => handler
  end.

(** A [dict] keyed by strings, in insertion order. *)
Definition dict (V : Type) := list (pystr * V).

Definition pystr_eqb (a b : pystr) : bool :=
  if list_eq_dec ascii_dec a b then true else false.

(** [d.get(k)] *)
Fixpoint dict_get {V : Type} (d : dict V) (k : pystr) : option V :=
  match d with
  | [] => None
  | (k', v) :: r => if pystr_eqb k' k then Some v else dict_get r k
  end.

(** [d[k] = v] *)
Fixpoint dict_set {V : Type} (d : dict V) (k : pystr) (v : V) : dict V :=
  match d with
  | [] => [(k, v)]
  | (k', v') :: r =>
      if pystr_eqb k' k then (k', v) :: r else (k', v') :: dict_set r k v
  end.

End Py.

Import Py.

(* ================================================================== *)
(** * os.path (POSIX flavour) *)
(* ================================================================== *)

Module OsPath.

(** [posixpath.basename]: [i = p.rfind('/') + 1; return p[i:]] *)
Definition basename (p : pystr) : pystr :=
  let i := rfind "/"%char p 0 (len p) + 1 in
  slice_from p i.

(** The loop of [genericpath._splitext] that skips the leading dots of the
    file name: [true] when a character other than the dot stands in
    [[filenameIndex, dotIndex)]. *)
Fixpoint has_non_dot (p : pystr) (k filenameIndex dotIndex : Z) : bool :=
  match p with
  | [] => false
  | c :: r =>
      ((filenameIndex <=? k) && (k <? dotIndex) && negb (Ascii.eqb c "."%char))
      || has_non_dot r (k + 1) filenameIndex dotIndex
  end.

(** [posixpath.splitext] *)
Definition splitext (p : pystr) : pystr * pystr :=
  let sepIndex := rfind "/"%char p 0 (len p) in
  let dotIndex := rfind "."%char p 0 (len p) in
  if (sepIndex <? dotIndex) && has_non_dot p 0 (sepIndex + 1) dotIndex
  then (slice_to p dotIndex, slice_from p dotIndex)
  else (p, []).

End OsPath.

(* ================================================================== *)
(** * xml.etree.ElementTree elements *)
(* ================================================================== *)

Module ET.

(** An element: tag, attribute dictionary, text before the first child,
    text after the closing tag, and the children in document order. *)
#[warnings="-register-all"]
Inductive Element : Type :=
  mkElement (tag : pystr) (attrib : dict pystr)
            (text : option pystr) (tail : option pystr)
            (children : list Element).

Definition tag (e : Element) := let 'mkElement t _ _ _ _ := e in t.
Definition attrib (e : Element) := let 'mkElement _ a _ _ _ := e in a.
Definition text (e : Element) := let 'mkElement _ _ t _ _ := e in t.
Definition tail (e : Element) := let 'mkElement _ _ _ t _ := e in t.
Definition children (e : Element) := let 'mkElement _ _ _ _ c := e in c.

(** The [if t: yield t] of [itertext]. *)
Definition yield_text (t : option pystr) : list pystr :=
  match t with
  | Some s => if truthy s then [s] else []
  | None => []
  end.

(** [Element.itertext]: the element's text, then for each child its inner
    text followed by its tail. *)
Fixpoint itertext (e : Element) : list pystr :=
  match e with
  | mkElement _ _ t _ cs =>
      yield_text t ++ flat_map (fun c => itertext c ++ yield_text (tail c)) cs
  end.

(** [Element.iter()]: the element itself, then its descendants, in
    document order. *)
Fixpoint iter (e : Element) : list Element :=
  match e with
  | mkElement _ _ _ _ cs => e :: flat_map iter cs
  end.

End ET.

Import ET.

(* ================================================================== *)
(** * fb2_utils.py *)
(* ================================================================== *)

Module Fb2.

Record BookInfo : Type := mkBookInfo {
  title : option pystr;
  authors : list pystr;
  genres : list pystr;
  publisher : option pystr;
  date : option pystr;
  lang : option pystr;
  description : option pystr;
  cover_bytes : option (list byte);
  full_text : option pystr
}.

(** [BookInfo()] *)
Definition BookInfo_default : BookInfo :=
  mkBookInfo None [] [] None None None None None None.

(** The part of [tag] after the first [ch], when [ch] occurs. *)
Fixpoint after_first (ch : ascii) (s : pystr) : option pystr :=
  match s with
  | [] => None
  | c :: r => if Ascii.eqb c ch then Some r else after_first ch r
  end.

(** [_local_name]: [tag.split('}', 1)[-1]] *)
Definition _local_name (tag : pystr) : pystr :=
  match after_first "}"%char tag with
  | Some r => r
  | None => tag
  end.

(** [_iter_children_with_name] *)
Definition _iter_children_with_name (elem : Element) (name : pystr)
  : list Element :=
  filter (fun child => pystr_eqb (_local_name (tag child)) name)
         (children elem).

(** [_find_first_child] *)
Definition _find_first_child (elem : Element) (name : pystr)
  : option Element :=
  find (fun child => pystr_eqb (_local_name (tag child)) name)
       (children elem).

(** [_elem_text] on an element that is not [None]. *)
Definition _elem_text (elem : Element) : pystr :=
  List.concat (itertext elem).

(** The recurring lookup
    [c = _find_first_child(parent, name); if c is not None:
       txt = _elem_text(c).strip(); if txt: ...]:
    the stripped text of the first child of that name when it is not
    empty. *)
Definition child_text (parent : Element) (name : pystr) : option pystr :=
  match _find_first_child parent name with
  | Some c =>
      let txt := strip (_elem_text c) in
      if truthy txt then Some txt else None
  | None => None
  end.

(** The stripped, non-empty texts of the [p] elements of [elem.iter()]. *)
Definition paragraphs_of (elem : Element) : list pystr :=
  flat_map
    (fun e =>
       if pystr_eqb (_local_name (tag e)) (py "p") then
         let t := strip (_elem_text e) in
         if truthy t then [t] else []
       else [])
    (iter elem).

(** [os.path.splitext(os.path.basename(path))[0]] *)
Definition filename_stem (path : pystr) : pystr :=
  fst (OsPath.splitext (OsPath.basename path)).

(** The separator of the joined paragraphs: two line feeds. *)
Definition blank_line : pystr := ["010"; "010"]%char.

Definition xlink_href : pystr := py "{http://www.w3.org/1999/xlink}href".

Section Extractor.

(** [ET.parse(path).getroot()]: the root element, or an exception (the file
    is unreadable or is not well-formed XML). *)
Variable ET_parse : pystr -> result Element.

(** [base64.b64decode] on a string: the bytes, or an exception. *)
Variable b64decode : pystr -> result (list byte).


(** The name assembled for one [author] element. *)
Definition author_name (author : Element) : pystr :=
  let first_name := _find_first_child author (py "first-name") in
  let last_name := _find_first_child author (py "last-name") in
  let middle_name := _find_first_child author (py "middle-name") in
  let part (o : option Element) : list pystr :=
    match o with Some e => [strip (_elem_text e)] | None => [] end in
  let parts := part first_name ++ part middle_name ++ part last_name in
  join (py " ") (filter truthy parts).

(** The cover lookup: the first [binary] of [root.iter()] whose [id] is
    [cover_id] decides, and the loop stops there. *)
Definition find_cover (root : Element) (cover_id : pystr)
  : option (list byte) :=
  match
    find (fun bin_elem =>
            pystr_eqb (_local_name (tag bin_elem)) (py "binary")
            && match dict_get (attrib bin_elem) (py "id") with
               | Some i => pystr_eqb i cover_id
               | None => false
               end)
         (iter root)
  with
  | Some bin_elem =>
      let data_base64 := strip (_elem_text bin_elem) in
      if truthy data_base64 then
        try_except (b64decode data_base64) None (fun bytes => Some bytes)
      else None
  | None => None
  end.

(** [parse_fb2_book_info] *)
Definition parse_fb2_book_info (path : pystr) : result BookInfo :=
  let info := BookInfo_default in
  try_except (ET_parse path)
    (Returned
       (mkBookInfo (Some (filename_stem path)) (authors info) (genres info)
          (publisher info) (date info) (lang info) (description info)
          (cover_bytes info) (full_text info)))
    (fun root =>
       (* description / title-info *)
       let description := _find_first_child root (py "description") in
       let title_info :=
         match description with
         | Some d => _find_first_child d (py "title-info")
         | None => None
         end in
       let publish_info :=
         match description with
         | Some d => _find_first_child d (py "publish-info")
         | None => None
         end in
       (* title *)
       let title0 :=
         match title_info with
         | Some ti => child_text ti (py "book-title")
         | None => None
         end in
       let title1 :=
         if truthy_opt title0 then title0 else Some (filename_stem path) in
       (* authors *)
       let authors1 :=
         match title_info with
         | Some ti =>
             filter truthy
               (map author_name (_iter_children_with_name ti (py "author")))
         | None => []
         end in
       (* genres *)
       let genres1 :=
         match title_info with
         | Some ti =>
             filter truthy
               (map (fun genre => strip (_elem_text genre))
                    (_iter_children_with_name ti (py "genre")))
         | None => []
         end in
       (* lang *)
       let lang1 :=
         match title_info with
         | Some ti => child_text ti (py "lang")
         | None => None
         end in
       (* publisher / date *)
       let publisher1 :=
         match publish_info with
         | Some pi => child_text pi (py "publisher")
         | None => None
         end in
       let date1 :=
         match publish_info with
         | Some pi => child_text pi (py "year")
         | None => None
         end in
       let date2 :=
         match title_info with
         | Some ti =>
             if negb (truthy_opt date1) then
               match child_text ti (py "date") with
               | Some txt => Some txt
               | None => date1
               end
             else date1
         | None => date1
         end in
       (* annotation -> description *)
       let description1 :=
         match title_info with
         | Some ti =>
             match _find_first_child ti (py "annotation") with
             | Some annotation =>
                 match paragraphs_of annotation with
                 | [] => None
                 | paras => Some (join blank_line paras)
                 end
             | None => None
             end
         | None => None
         end in
       (* cover *)
       let cover_id :=
         match title_info with
         | Some ti =>
             match _find_first_child ti (py "coverpage") with
             | Some coverpage =>
                 match _find_first_child coverpage (py "image") with
                 | Some image =>
                     let href :=
                       py_or (dict_get (attrib image) (py "href"))
                             (dict_get (attrib image) xlink_href) in
                     match href with
                     | Some h =>
                         if truthy h then Some (lstrip_char "#"%char h)
                         else None
                     | None => None
                     end
                 | None => None
                 end
             | None => None
             end
         | None => None
         end in
       let cover1 :=
         match cover_id with
         | Some cid => if truthy cid then find_cover root cid else None
         | None => None
         end in
       (* full text *)
       let paragraphs :=
         flat_map
           (fun body =>
              if pystr_eqb (_local_name (tag body)) (py "body")
              then paragraphs_of body else [])
           (children root) in
       let full_text1 :=
         match paragraphs with
         | [] => None
         | _ => Some (join blank_line paragraphs)
         end in
       Returned
         (mkBookInfo title1 authors1 genres1 publisher1 date2 lang1
            description1 cover1 full_text1)).

End Extractor.

End Fb2.

(* ================================================================== *)
(** * Python floats (IEEE 754 binary64) *)
(* ================================================================== *)

Module PyFloat.

Definition prec : Z := 53.
Definition emax : Z := 1024.

(** A Python [float] is a binary64 value. *)
Definition float := spec_float.

(** The literals of [main.py]. *)
Definition f0_0 : float := S754_zero false.
Definition f1_0 : float := S754_finite false 4503599627370496 (-52).
Definition f0_8 : float := S754_finite false 7205759403792794 (-53).

(** [float(z)] for an integer (correctly rounded; exact below 2^53). *)
Definition of_int (z : Z) : float := binary_normalize prec emax z 0 false.

(** [x * y] *)
Definition mul (x y : float) : float := SFmul prec emax x y.

(** [a / b] on integers with [b <> 0]: below 2^53 the quotient of the two
    exact conversions, correctly rounded. *)
Definition truediv (a b : Z) : float := SFdiv prec emax (of_int a) (of_int b).

(** [min(a, b)]: the first argument unless the second is smaller. *)
Definition min (a b : float) : float := if SFltb b a then b else a.

(** [max(a, b)]: the first argument unless the second is greater. *)
Definition max (a b : float) : float := if SFltb a b then b else a.

(** The integer nearest to [m * 2^e], ties to the even one. *)
Definition round_half_even (m : positive) (e : Z) : Z :=
  if 0 <=? e then Z.pos m * 2 ^ e
  else
    let d := 2 ^ (- e) in
    let q := Z.pos m / d in
    let r := Z.pos m mod d in
    match 2 * r ?= d with
    | Lt => q
    | Gt => q + 1
    | Eq => if Z.even q then q else q + 1
    end.

(** [round(x)] with one argument: the nearest integer, ties to even.
    Python raises on infinities and NaN; the model gives [0] there. *)
Definition round (x : float) : Z :=
  match x with
  | S754_finite s m e => cond_Zopp s (round_half_even m e)
  | _ => 0
  end.

(** [int(x)]: truncation toward zero.  Python raises on infinities and
    NaN; the model gives [0] there. *)
Definition to_int (x : float) : Z :=
  match x with
  | S754_finite s m e =>
      cond_Zopp s (if 0 <=? e then Z.pos m * 2 ^ e else Z.pos m / 2 ^ (- e))
  | _ => 0
  end.


End PyFloat.

(* ================================================================== *)
(** * main.py: pagination and page navigation of [MainWindow] *)
(* ================================================================== *)

Module Reader.

Import PyFloat.

(** What the Qt widgets report when [paginate_current_text] runs:
    [reader_edit.viewport().width()], [.height()],
    [fontMetrics().averageCharWidth()] and [fontMetrics().lineSpacing()]. *)
Record ReaderView : Type := mkReaderView {
  viewport_width : Z;
  viewport_height : Z;
  averageCharWidth : Z;
  lineSpacing : Z
}.

(** The fields of [MainWindow] that pagination and navigation read or
    write; [reader_text] is the plain text shown by [reader_edit].  The
    labels and the enabled state of the buttons are not modelled. *)
Record MainWindow : Type := mkMainWindow {
  current_book_path : option pystr;
  book_progress : dict float;
  is_reading : bool;
  current_full_text : option pystr;
  pages : list pystr;
  current_page_index : Z;
  reader_text : pystr
}.

Definition set_pages (s : MainWindow) (p : list pystr) : MainWindow :=
  mkMainWindow (current_book_path s) (book_progress s) (is_reading s)
    (current_full_text s) p (current_page_index s) (reader_text s).

Definition set_current_page_index (s : MainWindow) (i : Z) : MainWindow :=
  mkMainWindow (current_book_path s) (book_progress s) (is_reading s)
    (current_full_text s) (pages s) i (reader_text s).

Definition set_reader_text (s : MainWindow) (t : pystr) : MainWindow :=
  mkMainWindow (current_book_path s) (book_progress s) (is_reading s)
    (current_full_text s) (pages s) (current_page_index s) t.

Definition set_book_progress (s : MainWindow) (d : dict float) : MainWindow :=
  mkMainWindow (current_book_path s) d (is_reading s)
    (current_full_text s) (pages s) (current_page_index s) (reader_text s).

(** [capacity = chars_per_line * lines_per_page] *)
Definition estimate_capacity (v : ReaderView) : Z :=
  let width := max_int 1 (viewport_width v) in
  let height := max_int 1 (viewport_height v) in
  let avg_char_w := max_int 1 (averageCharWidth v) in
  let line_h := max_int 1 (lineSpacing v) in
  let chars_per_line := max_int 20 (width / avg_char_w) in
  let lines_per_page := max_int 3 (height / line_h) in
  chars_per_line * lines_per_page.

(** [int(capacity * 0.8)] *)
Definition split_margin (capacity : Z) : Z :=
  to_int (mul (of_int capacity) f0_8).

(** One turn of the [while] loop at position [i]: the page text and the
    next position. *)
Definition split_step (text : pystr) (capacity i : Z) : pystr * Z :=
  let n := len text in
  let end_ := min_int (i + capacity) n in
  let split_from := min_int n (i + split_margin capacity) in
  let split_pos := rfind " "%char text split_from end_ in
  let split_pos :=
    if (split_pos =? -1) || (split_pos <=? i) then end_ else split_pos in
  let page_text := strip (slice text i split_pos) in
  (page_text, split_pos).

(** The loop [while i < n: ...], run for at most [fuel] turns: [None] when
    the turns are used up before the loop condition fails. *)
Fixpoint split_loop (fuel : nat) (text : pystr) (capacity i : Z)
  (pages : list pystr) : option (list pystr) :=
  if i <? len text then
    match fuel with
    | O => None
    | S fuel' =>
        let '(page_text, split_pos) := split_step text capacity i in
        split_loop fuel' text capacity split_pos (pages ++ [page_text])
    end
  else Some pages.

(** [max(0.0, min(1.0, ratio))] *)
Definition clamp_ratio (ratio : float) : float :=
  PyFloat.max f0_0 (PyFloat.min f1_0 ratio).

(** The index that [paginate_current_text] derives from [ratio] for a page
    list of [total] pages. *)
Definition index_of_ratio (ratio : float) (total : Z) : Z :=
  if total =? 1 then 0
  else round (mul (clamp_ratio ratio) (of_int (total - 1))).

Section Session.

(** [os.path.abspath] *)
Variable abspath : pystr -> pystr.

(** [update_page_and_progress_labels]: the progress it stores. *)
Definition update_page_and_progress_labels (ratio : float) (s : MainWindow)
  : MainWindow :=
  let total_pages :=
    if is_reading s && negb (len (pages s) =? 0) then len (pages s) else 0 in
  if negb (is_reading s) || (total_pages =? 0) then s
  else
    let ratio := clamp_ratio ratio in
    if truthy_opt (current_book_path s) then
      match current_book_path s with
      | Some path =>
          set_book_progress s (dict_set (book_progress s) (abspath path) ratio)
      | None => s
      end
    else s.

(** [show_current_page] *)
Definition show_current_page (s : MainWindow) : MainWindow :=
  match pages s with
  | [] => update_page_and_progress_labels f0_0 (set_reader_text s [])
  | _ =>
      let total := len (pages s) in
      let idx := max_int 0 (min_int (current_page_index s) (total - 1)) in
      let s := set_current_page_index s idx in
      let s := set_reader_text s (nth (Z.to_nat idx) (pages s) []) in
      let ratio := if total =? 1 then f0_0 else truediv idx (total - 1) in
      update_page_and_progress_labels ratio s
  end.

(** [paginate_current_text]; [None] when the splitting loop does not end
    within [fuel] turns. *)
Definition paginate_current_text (fuel : nat) (v : ReaderView)
  (ratio : float) (s : MainWindow) : option MainWindow :=
  if negb (truthy_opt (current_full_text s)) then
    Some (show_current_page
            (set_current_page_index (set_pages s [[]]) 0))
  else
    let capacity := estimate_capacity v in
    let text := match current_full_text s with Some t => t | None => [] end in
    match split_loop fuel text capacity 0 [] with
    | None => None
    | Some pages0 =>
        let pages1 := match pages0 with [] => [[]] | _ => pages0 end in
        let s := set_pages s pages1 in
        let s := set_current_page_index s (index_of_ratio ratio (len pages1)) in
        Some (show_current_page s)
    end.

(** [go_to_page] *)
Definition go_to_page (page_index : Z) (s : MainWindow) : MainWindow :=
  if negb (is_reading s) || (len (pages s) =? 0) then s
  else
    let total := len (pages s) in
    let page_index := max_int 0 (min_int page_index (total - 1)) in
    let s := set_current_page_index s page_index in
    show_current_page s.

(** [go_next_page] *)
Definition go_next_page (s : MainWindow) : MainWindow :=
  if negb (is_reading s) then s
  else go_to_page (current_page_index s + 1) s.

(** [go_prev_page] *)
Definition go_prev_page (s : MainWindow) : MainWindow :=
  if negb (is_reading s) then s
  else go_to_page (current_page_index s - 1) s.



End Session.

End Reader.

(* ================================================================== *)
(** * The specification's vocabulary *)
(* ================================================================== *)

Module Spec.

Import Fb2.

(** [x] is the first element of [l] that satisfies [P]. *)
Definition first_such {A : Type} (P : A -> Prop) (l : list A) (x : A) : Prop :=
  exists l1 l2, l = l1 ++ x :: l2 /\ P x /\ forall y, In y l1 -> ~ P y.

(** [c] is the first child of [parent], in document order, whose local name
    is [name]. *)
Definition first_child_named (name : pystr) (parent c : Element) : Prop :=
  first_such (fun x => _local_name (tag x) = name) (children parent) c.

(** [e] is the element at [a/b/c] below [root]: [root]'s first child named
    [a], that child's first child named [b], and so on.  No element is at
    the path as soon as one step has no child of its name. *)
Fixpoint at_path (root : Element) (names : list pystr) (e : Element) : Prop :=
  match names with
  | [] => e = root
  | name :: rest =>
      exists c, first_child_named name root c /\ at_path c rest e
  end.






(** The strict descendants of an element, in document order. *)
Definition descendants (e : Element) : list Element :=
  flat_map iter (children e).

Definition is_named (name : pystr) (e : Element) : bool :=
  pystr_eqb (_local_name (tag e)) name.

(** The direct children of the root whose local name is [body]. *)
Definition body_sections (root : Element) : list Element :=
  filter (is_named (py "body")) (children root).

(** The trimmed text content of every descendant [p] of every body
    section, in document order. *)
Definition paragraph_texts (root : Element) : list pystr :=
  map (fun p => strip (_elem_text p))
      (filter (is_named (py "p")) (flat_map descendants (body_sections root))).

(** The full text as the specification words it: every paragraph joined,
    absent when there is no paragraph. *)
Definition claimed_full_text (root : Element) : option pystr :=
  match paragraph_texts root with
  | [] => None
  | ps => Some (join blank_line ps)
  end.

(** The full text over the paragraphs whose trimmed text is not empty. *)
Definition nonempty_full_text (root : Element) : option pystr :=
  match filter truthy (paragraph_texts root) with
  | [] => None
  | ps => Some (join blank_line ps)
  end.

(** [image] is the element description/title-info/coverpage/image. *)
Definition cover_image (root image : Element) : Prop :=
  at_path root
    [py "description"; py "title-info"; py "coverpage"; py "image"] image.

(** [h] is the image reference of [image]: its unprefixed [href] attribute
    when that is present and not empty, its XLink [href] otherwise; an
    empty reference counts as none. *)
Definition image_href (image : Element) (h : pystr) : Prop :=
  h <> []
  /\ (dict_get (attrib image) (py "href") = Some h
      \/ ((dict_get (attrib image) (py "href") = None
           \/ dict_get (attrib image) (py "href") = Some [])
          /\ dict_get (attrib image) xlink_href = Some h)).

(** [r] is [h] without its leading ['#'] characters, all of them. *)
Definition without_leading_hashes (h r : pystr) : Prop :=
  (exists k, h = repeat "#"%char k ++ r)
  /\ forall r', r <> "#"%char :: r'.

(** [cid] is the cover reference of the document: the image reference
    without its leading ['#'] characters. *)
Definition cover_reference (root : Element) (cid : pystr) : Prop :=
  exists image h,
    cover_image root image /\ image_href image h
    /\ without_leading_hashes h cid.

(** The reference as the specification words it: one leading ['#'] is
    stripped. *)
Definition strip_one_hash (h : pystr) : pystr :=
  match h with
  | c :: r => if Ascii.eqb c "#"%char then r else h
  | [] => []
  end.

Definition claimed_cover_reference (root : Element) (cid : pystr) : Prop :=
  exists image h,
    cover_image root image /\ image_href image h /\ cid = strip_one_hash h.

(** [e] is a [binary] element whose [id] attribute is [cid]. *)
Definition binary_with_id (cid : pystr) (e : Element) : Prop :=
  _local_name (tag e) = py "binary" /\ dict_get (attrib e) (py "id") = Some cid.

(** The reference [cid] resolves to [bytes]: the first [binary] of the
    document whose [id] is [cid] holds the base64 text of [bytes]. *)
Definition resolves_to (b64decode : pystr -> result (list byte))
  (root : Element) (cid : pystr) (bytes : list byte) : Prop :=
  exists b,
    first_such (binary_with_id cid) (iter root) b
    /\ b64decode (strip (_elem_text b)) = Returned bytes.

(** Leaf elements for the sample documents. *)
Definition leaf (name : string) (txt : option string) : Element :=
  mkElement (py name) []
    (match txt with Some t => Some (py t) | None => None end) None [].

Definition node (name : string) (cs : list Element) : Element :=
  mkElement (py name) [] None None cs.

(** Two body sections with the paragraphs A, B and C, D. *)
Definition doc_two_bodies : Element :=
  node "FictionBook"
    [ node "description" [ node "title-info" [ leaf "book-title" (Some "T") ] ];
      node "body" [ node "section" [ leaf "p" (Some "A"); leaf "p" (Some "B") ] ];
      node "body" [ leaf "p" (Some "C"); leaf "p" (Some "D") ] ]%string.

(** A body whose second paragraph is empty. *)
Definition doc_blank_paragraph : Element :=
  node "FictionBook"
    [ node "body"
        [ leaf "p" (Some "A"); leaf "p" None; leaf "p" (Some "B") ] ]%string.

(** A document whose cover image refers to an embedded binary. *)
Definition doc_with_cover : Element :=
  mkElement (py "FictionBook") [] None None
    [ node "description"
        [ node "title-info"
            [ leaf "book-title" (Some "T");
              node "coverpage"
                [ mkElement (py "image") [(xlink_href, py "#cover.jpg")]
                    None None [] ] ] ];
      node "body" [ leaf "p" (Some "A") ];
      mkElement (py "binary") [(py "id", py "notes.png")]
        (Some (py "eA==")) None [];
      mkElement (py "binary") [(py "id", py "cover.jpg")]
        (Some (py "aGk=")) None [] ]%string.

(** A cover image whose reference starts with two ['#'], and a binary whose
    id starts with one. *)
Definition doc_double_hash : Element :=
  mkElement (py "FictionBook") [] None None
    [ node "description"
        [ node "title-info"
            [ leaf "book-title" (Some "T");
              node "coverpage"
                [ mkElement (py "image") [(xlink_href, py "##c")]
                    None None [] ] ] ];
      mkElement (py "binary") [(py "id", py "#c")]
        (Some (py "aGk=")) None [] ]%string.


(** A decoder that knows one string and raises on every other one. *)
Definition decode_hi (s : pystr) : result (list byte) :=
  if pystr_eqb s (py "aGk=") then Returned [x68; x69]%byte else Raised.

(** The character at position [k] of [text], when [0 <= k < len text]. *)
Definition char_at (text : pystr) (k : Z) : option ascii :=
  if k <? 0 then None else nth_error text (Z.to_nat k).

(** [k] is the last position in [[lo, hi)] that holds a space. *)
Definition last_space (text : pystr) (lo hi k : Z) : Prop :=
  lo <= k < hi
  /\ char_at text k = Some " "%char
  /\ forall j, k < j < hi -> char_at text j <> Some " "%char.

(** The pages the splitting algorithm of the specification emits from
    position [i] on, for a search margin [margin]: at each position below
    the length, with [end = min(i + capacity, length)], the cut is the last
    space of [[i + margin, end)] when there is one beyond [i], and [end]
    otherwise; the page is the trimmed text up to the cut. *)
Inductive paged (margin : Z) (text : pystr) (capacity : Z)
  : Z -> list pystr -> Prop :=
| paged_end i :
    len text <= i ->
    paged margin text capacity i []
| paged_space i k rest :
    i < len text ->
    last_space text (i + margin) (Z.min (i + capacity) (len text)) k ->
    i < k ->
    paged margin text capacity k rest ->
    paged margin text capacity i (strip (slice text i k) :: rest)
| paged_forced i rest :
    i < len text ->
    (forall k,
       last_space text (i + margin) (Z.min (i + capacity) (len text)) k ->
       k <= i) ->
    paged margin text capacity (Z.min (i + capacity) (len text)) rest ->
    paged margin text capacity i
      (strip (slice text i (Z.min (i + capacity) (len text))) :: rest).

(** A line feed followed by 999 letters: 1000 characters, no space. *)
Definition text_newline_first : pystr :=
  "010"%char :: repeat "a"%char 999.

(** The text a window paginates ([current_full_text], empty when [None]). *)
Definition text_of (s : Reader.MainWindow) : pystr :=
  match Reader.current_full_text s with Some t => t | None => [] end.

(** A reading session on [text] before its first pagination. *)
Definition session_on (text : pystr) : Reader.MainWindow :=
  Reader.mkMainWindow (Some (py "/books/a.fb2")) [] true (Some text) [] 0 [].

(** A view of 160 by 48 pixels with characters of 8 by 16: 20 characters
    per line, 3 lines per page. *)
Definition small_view : Reader.ReaderView :=
  Reader.mkReaderView 160 48 8 16.

(** A view of 800 by 600 pixels with characters of 8 by 16. *)
Definition wide_view : Reader.ReaderView :=
  Reader.mkReaderView 800 600 8 16.

(** A letter, two hundred spaces, a letter. *)
Definition text_long_gap : pystr :=
  "a"%char :: repeat " "%char 200 ++ ["b"%char].

(** The ratio 0.5. *)
Definition ratio_half : PyFloat.float :=
  S754_finite false 4503599627370496 (-53).

(** The ratio that [show_current_page] derives from a page index. *)
Definition ratio_of_index (idx total : Z) : PyFloat.float :=
  if total =? 1 then PyFloat.f0_0 else PyFloat.truediv idx (total - 1).

(** [os.path.abspath] on paths that are absolute and normalised. *)
Definition abspath_id (p : pystr) : pystr := p.

(** A reading session with three pages, the first one shown. *)
Definition session_three_pages : Reader.MainWindow :=
  Reader.mkMainWindow (Some (py "/books/a.fb2")) [] true
    (Some (py "one two three")) [py "one"; py "two"; py "three"] 0 (py "one").

(** [x] carries the sign [s] (NaN carries none). *)
Definition signed_as (s : bool) (x : spec_float) : Prop :=
  match x with
  | S754_zero s' | S754_infinity s' | S754_finite s' _ _ => s' = s
  | S754_nan => True
  end.

End Spec.

(* ================================================================== *)
(** * Facts about the Python builtins *)
(* ================================================================== *)

Import Fb2 Spec.

Lemma pystr_eqb_eq (a b : pystr) : pystr_eqb a b = true <-> a = b.
Proof.
  unfold pystr_eqb. destruct (list_eq_dec ascii_dec a b); split; congruence.
Qed.

Lemma pystr_eqb_refl (a : pystr) : pystr_eqb a a = true.
Proof. now apply pystr_eqb_eq. Qed.

Lemma pystr_eqb_neq (a b : pystr) : pystr_eqb a b = false <-> a <> b.
Proof.
  unfold pystr_eqb. destruct (list_eq_dec ascii_dec a b); split; congruence.
Qed.

(** ** Lists cut by a predicate *)

Lemma flat_map_guarded {A B : Type} (p : A -> bool) (g : A -> list B) l :
  flat_map (fun x => if p x then g x else []) l = flat_map g (filter p l).
Proof.
  induction l as [|x l IH]; simpl; [reflexivity|].
  destruct (p x); simpl; now rewrite IH.
Qed.

Lemma flat_map_keep {A : Type} (p : A -> bool) (f : A -> pystr) l :
  flat_map (fun e => if p e then (if truthy (f e) then [f e] else []) else []) l
  = filter truthy (map f (filter p l)).
Proof.
  induction l as [|x l IH]; simpl; [reflexivity|].
  destruct (p x); simpl; [|exact IH].
  destruct (truthy (f x)); simpl; now rewrite IH.
Qed.

Lemma filter_flat_map {A B : Type} (p : B -> bool) (g : A -> list B) l :
  filter p (flat_map g l) = flat_map (fun x => filter p (g x)) l.
Proof.
  induction l as [|x l IH]; simpl; [reflexivity|].
  now rewrite filter_app, IH.
Qed.

Lemma map_flat_map {A B C : Type} (f : B -> C) (g : A -> list B) l :
  map f (flat_map g l) = flat_map (fun x => map f (g x)) l.
Proof.
  induction l as [|x l IH]; simpl; [reflexivity|].
  now rewrite map_app, IH.
Qed.

Lemma find_first_such {A : Type} (f : A -> bool) l1 x l2 :
  f x = true -> (forall y, In y l1 -> f y = false) ->
  find f (l1 ++ x :: l2) = Some x.
Proof.
  intros Hx. induction l1 as [|y l1 IH]; intros Hl; simpl.
  - now rewrite Hx.
  - rewrite (Hl y (or_introl eq_refl)). apply IH.
    intros z Hz. apply Hl. now right.
Qed.

Lemma find_none_iff {A : Type} (f : A -> bool) l :
  (forall y, In y l -> f y = false) -> find f l = None.
Proof.
  induction l as [|y l IH]; intros Hl; simpl; [reflexivity|].
  rewrite (Hl y (or_introl eq_refl)). apply IH.
  intros z Hz. apply Hl. now right.
Qed.

Lemma find_some_first {A : Type} (f : A -> bool) l x :
  find f l = Some x ->
  exists l1 l2,
    l = l1 ++ x :: l2 /\ f x = true /\ forall y, In y l1 -> f y = false.
Proof.
  induction l as [|a l IH]; simpl; [discriminate|].
  destruct (f a) eqn:E.
  - intros [= <-]. exists [], l. split; [reflexivity|].
    split; [exact E|intros y []].
  - intros H. destruct (IH H) as (l1 & l2 & -> & Hx & Hl).
    exists (a :: l1), l2. split; [reflexivity|]. split; [exact Hx|].
    intros y [<-|Hy]; [exact E|now apply Hl].
Qed.

(** The first element with a property is determined by the list. *)
Lemma first_such_unique {A : Type} (P : A -> Prop) l x y :
  first_such P l x -> first_such P l y -> x = y.
Proof.
  intros (l1 & l2 & -> & Hx & H1) (k1 & k2 & E & Hy & H2).
  revert k1 E H2. induction l1 as [|a l1 IH]; intros [|b k1] E H2; cbn in E.
  - congruence.
  - injection E as E _. subst b. destruct (H2 x (or_introl eq_refl) Hx).
  - injection E as E _. subst a. destruct (H1 y (or_introl eq_refl) Hy).
  - injection E as _ E.
    apply (IH (fun z Hz => H1 z (or_intror Hz)) k1 E).
    intros z Hz. apply H2. now right.
Qed.




(* ================================================================== *)
(** * The metadata extractor *)
(* ================================================================== *)

(** ** Sample runs *)

Example filename_stem_samples :
  map filename_stem
    [py "/books/war.and.peace.fb2"; py ".hidden"; py "book"; py "lib.d/book"]
  = [py "war.and.peace"; py ".hidden"; py "book"; py "book"].
Proof. reflexivity. Qed.

Example local_name_samples :
  map _local_name
    [py "{http://www.gribuser.ru/xml/fictionbook/2.0}body"; py "body"]
  = [py "body"; py "body"].
Proof. reflexivity. Qed.

(** [lstrip("#")] removes every leading ['#']; on a reference with one
    leading ['#'] that is the reference without it. *)
Lemma lstrip_char_one_hash x :
  (forall r, x <> "#"%char :: r) -> lstrip_char "#"%char ("#"%char :: x) = x.
Proof.
  intros Hx. cbn [lstrip_char]. rewrite Ascii.eqb_refl.
  destruct x as [|c r]; [reflexivity|]. cbn [lstrip_char].
  destruct (Ascii.eqb_spec c "#"%char) as [->|_]; [|reflexivity].
  now destruct (Hx r).
Qed.

Example lstrip_char_samples :
  map (lstrip_char "#"%char) [py "#cover.jpg"; py "cover.jpg"; py "##c"; py "#"]
  = [py "cover.jpg"; py "cover.jpg"; py "c"; []].
Proof. reflexivity. Qed.

(** ** The code's intermediate values, in the specification's vocabulary *)

Section ExtractorFacts.

Variable ET_parse : pystr -> result Element.
Variable b64decode : pystr -> result (list byte).

Lemma parse_returns path :
  exists info, parse_fb2_book_info ET_parse b64decode path = Returned info.
Proof.
  unfold parse_fb2_book_info, try_except.
  destruct (ET_parse path); eexists; reflexivity.
Qed.

Lemma child_text_truthy parent name txt :
  child_text parent name = Some txt -> truthy txt = true.
Proof.
  unfold child_text. destruct (_find_first_child parent name); [|discriminate].
  destruct (truthy (strip (_elem_text e))) eqn:E; [|discriminate].
  intros [= <-]. exact E.
Qed.

(** [_find_first_child] finds the first child of the name, and nothing
    else. *)
Lemma find_first_child_iff parent name c :
  _find_first_child parent name = Some c <-> first_child_named name parent c.
Proof.
  unfold _find_first_child, first_child_named, first_such. split.
  - intros H. apply find_some_first in H as (l1 & l2 & E & Hc & Hl).
    exists l1, l2. split; [exact E|]. split; [now apply pystr_eqb_eq|].
    intros y Hy Hn. apply pystr_eqb_eq in Hn. rewrite (Hl y Hy) in Hn.
    discriminate.
  - intros (l1 & l2 & -> & Hc & Hl). apply find_first_such.
    + now apply pystr_eqb_eq.
    + intros y Hy. apply pystr_eqb_neq. now apply Hl.
Qed.

(** One step of a path, as the code takes it. *)
Lemma at_path_step root name rest :
  match _find_first_child root name with
  | Some c => forall e, at_path root (name :: rest) e <-> at_path c rest e
  | None => forall e, ~ at_path root (name :: rest) e
  end.
Proof.
  destruct (_find_first_child root name) as [c|] eqn:E.
  - intros e. cbn [at_path]. split.
    + intros (c' & Hc & He). apply find_first_child_iff in Hc. congruence.
    + intros He. exists c. split; [now apply find_first_child_iff|exact He].
  - intros e (c & Hc & _). apply find_first_child_iff in Hc. congruence.
Qed.

(** A path leads to one element at most. *)
Lemma at_path_unique names : forall root e1 e2,
  at_path root names e1 -> at_path root names e2 -> e1 = e2.
Proof.
  induction names as [|name rest IH]; cbn [at_path]; intros root e1 e2.
  - congruence.
  - intros (c1 & Hc1 & H1) (c2 & Hc2 & H2).
    rewrite (first_such_unique _ _ _ _ Hc1 Hc2) in H1.
    exact (IH _ _ _ H1 H2).
Qed.



(** The paragraphs the code collects under one element. *)
Lemma paragraphs_of_filter elem :
  paragraphs_of elem
  = filter truthy
      (map (fun p => strip (_elem_text p)) (filter (is_named (py "p")) (iter elem))).
Proof.
  unfold paragraphs_of.
  apply (flat_map_keep (is_named (py "p")) (fun p => strip (_elem_text p))).
Qed.

Lemma iter_unfold e : iter e = e :: descendants e.
Proof. destruct e; reflexivity. Qed.

(** A body section is not itself a paragraph. *)
Lemma paragraphs_of_body body :
  is_named (py "body") body = true ->
  paragraphs_of body
  = filter truthy
      (map (fun p => strip (_elem_text p))
           (filter (is_named (py "p")) (descendants body))).
Proof.
  intros Hb. rewrite paragraphs_of_filter, iter_unfold. cbn [filter].
  assert (Hp : is_named (py "p") body = false).
  { unfold is_named in *. apply pystr_eqb_eq in Hb. rewrite Hb. reflexivity. }
  now rewrite Hp.
Qed.

Lemma full_text_of_parse path root info :
  ET_parse path = Returned root ->
  parse_fb2_book_info ET_parse b64decode path = Returned info ->
  full_text info = nonempty_full_text root.
Proof.
  intros Hroot. unfold parse_fb2_book_info, try_except. rewrite Hroot.
  intros H.
  change (full_text info)
    with (match Returned info with
          | Returned i => full_text i
          | Raised => None
          end).
  rewrite <- H. cbn [full_text]. clear H.
  unfold nonempty_full_text, paragraph_texts, body_sections.
  assert (E :
    flat_map
      (fun body =>
         if pystr_eqb (_local_name (tag body)) (py "body")
         then paragraphs_of body else [])
      (children root)
    = filter truthy
        (map (fun p => strip (_elem_text p))
           (filter (is_named (py "p"))
              (flat_map descendants
                 (filter (is_named (py "body")) (children root)))))).
  { induction (children root) as [|c cs IH]; [reflexivity|].
    cbn [flat_map filter]. fold (is_named (py "body") c).
    destruct (is_named (py "body") c) eqn:Hc.
    - cbn [flat_map]. rewrite filter_app, map_app, filter_app, <- IH.
      now rewrite (paragraphs_of_body c Hc).
    - exact IH. }
  rewrite E.
  now destruct (filter truthy
                  (map (fun p => strip (_elem_text p))
                     (filter (is_named (py "p"))
                        (flat_map descendants
                           (filter (is_named (py "body")) (children root)))))).
Qed.

(** [lstrip("#")] leaves the reference without any leading ['#'], and
    nothing else does. *)
Lemma lstrip_char_hashes h :
  without_leading_hashes h (lstrip_char "#"%char h).
Proof.
  induction h as [|c h [[k Hk] Hn]].
  - split; [now exists 0%nat|discriminate].
  - cbn [lstrip_char]. destruct (Ascii.eqb_spec c "#"%char) as [->|Hc].
    + split; [|exact Hn]. exists (S k). cbn [repeat app]. now rewrite <- Hk.
    + split; [now exists 0%nat|]. intros r' [= E _]. congruence.
Qed.

Lemma without_leading_hashes_unique h r :
  without_leading_hashes h r -> r = lstrip_char "#"%char h.
Proof.
  intros [[k ->] Hn]. induction k as [|k IH]; [|exact IH].
  destruct r as [|c r]; [reflexivity|]. cbn [repeat app lstrip_char].
  destruct (Ascii.eqb_spec c "#"%char) as [->|_]; [|reflexivity].
  now destruct (Hn r).
Qed.

(** The [href or xlink-href] of the code, tested by [if href:]. *)
Lemma image_href_iff image h :
  image_href image h
  <-> py_or (dict_get (attrib image) (py "href"))
            (dict_get (attrib image) xlink_href) = Some h
      /\ truthy h = true.
Proof.
  unfold image_href, py_or, truthy_opt.
  destruct (dict_get (attrib image) (py "href")) as [[|c a]|];
    cbn [truthy]; split.
  - intros [Hh [E|[_ E]]]; [congruence|]. split; [exact E|].
    now destruct h.
  - intros [E Ht]. split; [now destruct h|]. right. split; [now right|exact E].
  - intros [_ [E|[[E|E] _]]]; try discriminate. split; [exact E|].
    now injection E as <-.
  - intros [E Ht]. split; [now destruct h|]. now left.
  - intros [Hh [E|[_ E]]]; [discriminate|]. split; [exact E|].
    now destruct h.
  - intros [E Ht]. split; [now destruct h|]. right. split; [now left|exact E].
Qed.

(** The cover reference is determined by the document. *)
Lemma cover_reference_unique root c1 c2 :
  cover_reference root c1 -> cover_reference root c2 -> c1 = c2.
Proof.
  intros (im1 & h1 & Hi1 & Hh1 & Hs1) (im2 & h2 & Hi2 & Hh2 & Hs2).
  rewrite (at_path_unique _ _ _ _ Hi1 Hi2) in Hh1.
  apply image_href_iff in Hh1 as [Hh1 _], Hh2 as [Hh2 _].
  assert (h1 = h2) as -> by congruence.
  rewrite (without_leading_hashes_unique _ _ Hs1).
  now rewrite (without_leading_hashes_unique _ _ Hs2).
Qed.

(** The identifier the code resolves is the cover reference, and a
    non-empty one is looked up among the binaries; without a cover
    reference there is no cover. *)
Lemma cover_of_parse path root info :
  ET_parse path = Returned root ->
  parse_fb2_book_info ET_parse b64decode path = Returned info ->
  (exists cid,
     cover_reference root cid
     /\ cover_bytes info
        = if truthy cid then find_cover b64decode root cid else None)
  \/ ((forall cid, ~ cover_reference root cid) /\ cover_bytes info = None).
Proof.
  intros Hroot. unfold parse_fb2_book_info, try_except. rewrite Hroot.
  intros H.
  change (cover_bytes info)
    with (match Returned info with
          | Returned i => cover_bytes i
          | Raised => None
          end).
  rewrite <- H. cbn [cover_bytes]. clear H.
  unfold cover_reference, cover_image.
  pose proof (at_path_step root (py "description")
                [py "title-info"; py "coverpage"; py "image"]) as H1.
  destruct (_find_first_child root (py "description")) as [d|].
  2:{ right. split; [|reflexivity]. intros cid (im & h & Him & _).
      exact (H1 _ Him). }
  pose proof (at_path_step d (py "title-info")
                [py "coverpage"; py "image"]) as H2.
  destruct (_find_first_child d (py "title-info")) as [ti|].
  2:{ right. split; [|reflexivity]. intros cid (im & h & Him & _).
      apply H1 in Him. exact (H2 _ Him). }
  pose proof (at_path_step ti (py "coverpage") [py "image"]) as H3.
  destruct (_find_first_child ti (py "coverpage")) as [cp|].
  2:{ right. split; [|reflexivity]. intros cid (im & h & Him & _).
      apply H1, H2 in Him. exact (H3 _ Him). }
  pose proof (at_path_step cp (py "image") []) as H4.
  destruct (_find_first_child cp (py "image")) as [image|].
  2:{ right. split; [|reflexivity]. intros cid (im & h & Him & _).
      apply H1, H2, H3 in Him. exact (H4 _ Him). }
  assert (Himage : forall im,
            at_path root
              [py "description"; py "title-info"; py "coverpage"; py "image"]
              im <-> im = image).
  { intros im. rewrite H1, H2, H3, H4. reflexivity. }
  pose proof (image_href_iff image) as Hhref.
  destruct (py_or (dict_get (attrib image) (py "href"))
                  (dict_get (attrib image) xlink_href)) as [h|].
  - destruct (truthy h) eqn:Ht.
    + left. exists (lstrip_char "#"%char h). split; [|reflexivity].
      exists image, h. split; [now apply Himage|].
      split; [now apply Hhref|apply lstrip_char_hashes].
    + right. split; [|reflexivity]. intros cid (im & h' & Him & Hh & _).
      apply Himage in Him. subst im. apply Hhref in Hh as [[= ->] Hh].
      congruence.
  - right. split; [|reflexivity]. intros cid (im & h' & Him & Hh & _).
    apply Himage in Him. subst im. apply Hhref in Hh as [Hh _].
    discriminate.
Qed.

Lemma binary_test_spec cid e :
  (pystr_eqb (_local_name (tag e)) (py "binary")
   && match dict_get (attrib e) (py "id") with
      | Some i => pystr_eqb i cid
      | None => false
      end) = true
  <-> binary_with_id cid e.
Proof.
  unfold binary_with_id. rewrite andb_true_iff, pystr_eqb_eq.
  destruct (dict_get (attrib e) (py "id")) as [i|].
  - rewrite pystr_eqb_eq. split; intros [H1 H2]; split; congruence.
  - split; intros [H1 H2]; discriminate.
Qed.

Lemma find_cover_no_binary root cid :
  (forall e, In e (iter root) -> ~ binary_with_id cid e) ->
  find_cover b64decode root cid = None.
Proof.
  intros Hno. unfold find_cover. rewrite find_none_iff; [reflexivity|].
  intros e He. apply not_true_is_false. intros Ht.
  apply (Hno e He). now apply binary_test_spec.
Qed.

Lemma find_cover_first root cid b :
  first_such (binary_with_id cid) (iter root) b ->
  find_cover b64decode root cid =
    if truthy (strip (_elem_text b)) then
      match b64decode (strip (_elem_text b)) with
      | Returned bytes => Some bytes
      | Raised => None
      end
    else None.
Proof.
  intros (l1 & l2 & Hl & Hb & Hbefore). unfold find_cover. rewrite Hl.
  rewrite find_first_such.
  - unfold try_except. now destruct (truthy (strip (_elem_text b))).
  - now apply binary_test_spec.
  - intros y Hy. apply not_true_is_false. intros Ht.
    apply (Hbefore y Hy). now apply binary_test_spec.
Qed.

End ExtractorFacts.

(** ** The claims about the extractor *)

(** C1.  For every path [parse_fb2_book_info] returns a record, whatever the
    parser and the base64 decoder do; when parsing the file raises, the
    record holds the file's base name without its extension as title and
    every other field is [None] or the empty list. *)
Theorem parse_fb2_book_info_always_returns
  (ET_parse : pystr -> result Element)
  (b64decode : pystr -> result (list byte)) (path : pystr) :
  (exists info, parse_fb2_book_info ET_parse b64decode path = Returned info)
  /\ (ET_parse path = Raised ->
      parse_fb2_book_info ET_parse b64decode path
      = Returned
          (mkBookInfo (Some (filename_stem path)) [] [] None None None None
             None None)).
Proof.
  split; [apply parse_returns|].
  intros H. unfold parse_fb2_book_info, try_except. now rewrite H.
Qed.

Lemma parse_fb2_book_info_always_returns_witness :
  parse_fb2_book_info (fun _ => Raised) (fun _ => Raised)
    (py "/books/war.and.peace.fb2")
  = Returned
      (mkBookInfo (Some (py "war.and.peace")) [] [] None None None None
         None None).
Proof.
  exact (proj2 (parse_fb2_book_info_always_returns
                  (fun _ => Raised) (fun _ => Raised)
                  (py "/books/war.and.peace.fb2")) eq_refl).
Defined.

(** C6 fails as stated: a [p] whose trimmed text is empty is left out of the
    full text, so the join over every [p] differs from what the code
    returns. *)
Lemma full_text_skips_blank_paragraphs :
  exists info,
    parse_fb2_book_info (fun _ => Returned doc_blank_paragraph)
      (fun _ => Raised) (py "b.fb2") = Returned info
    /\ full_text info = Some (py "A" ++ blank_line ++ py "B")
    /\ claimed_full_text doc_blank_paragraph
       = Some (py "A" ++ blank_line ++ blank_line ++ py "B")
    /\ full_text info <> claimed_full_text doc_blank_paragraph.
Proof.
  eexists. split; [reflexivity|]. split; [reflexivity|].
  split; [reflexivity|]. discriminate.
Qed.

(** C6, amended.  For every document that parses, the full text is the join,
    with a blank line as separator, of the non-empty trimmed texts of the
    [p] descendants of the root's [body] children, in document order over
    all bodies, and it is [None] when no [p] has a non-empty trimmed text;
    two bodies with the paragraphs A, B and C, D give A, B, C, D joined by
    blank lines. *)
Theorem full_text_joins_nonempty_paragraphs
  (ET_parse : pystr -> result Element)
  (b64decode : pystr -> result (list byte)) (path : pystr) (root : Element)
  (Hroot : ET_parse path = Returned root) :
  (exists info,
     parse_fb2_book_info ET_parse b64decode path = Returned info
     /\ full_text info = nonempty_full_text root)
  /\ nonempty_full_text doc_two_bodies
     = Some (py "A" ++ blank_line ++ py "B" ++ blank_line
             ++ py "C" ++ blank_line ++ py "D").
Proof.
  split; [|reflexivity].
  destruct (parse_returns ET_parse b64decode path) as [info Hinfo].
  exists info. split; [exact Hinfo|].
  exact (full_text_of_parse _ _ _ _ _ Hroot Hinfo).
Qed.

Lemma full_text_joins_nonempty_paragraphs_witness :
  exists info,
    parse_fb2_book_info (fun _ => Returned doc_two_bodies) (fun _ => Raised)
      (py "ab.fb2") = Returned info
    /\ full_text info
       = Some (py "A" ++ blank_line ++ py "B" ++ blank_line
               ++ py "C" ++ blank_line ++ py "D").
Proof.
  destruct (full_text_joins_nonempty_paragraphs
              (fun _ => Returned doc_two_bodies) (fun _ => Raised)
              (py "ab.fb2") doc_two_bodies eq_refl)
    as [[info [Hinfo Htext]] Hsample].
  exists info. split; [exact Hinfo|].
  rewrite Htext. exact Hsample.
Defined.

(** The children of the sample documents are found by name. *)
Lemma first_child_here name parent c rest :
  children parent = c :: rest -> _local_name (tag c) = name ->
  first_child_named name parent c.
Proof.
  intros E Hc. exists [], rest. split; [exact E|]. split; [exact Hc|].
  intros y [].
Qed.

(** C7 fails as stated: the code removes every leading ['#'] of the
    reference, not one.  For the reference [##c] the claim resolves [#c],
    the id of a binary that decodes, and the code resolves [c], the id of no
    binary: the record has no cover. *)
Lemma cover_reference_loses_every_hash :
  exists info,
    parse_fb2_book_info (fun _ => Returned doc_double_hash) decode_hi
      (py "c.fb2") = Returned info
    /\ claimed_cover_reference doc_double_hash (py "#c")
    /\ resolves_to decode_hi doc_double_hash (py "#c") [x68; x69]%byte
    /\ cover_bytes info = None.
Proof.
  eexists. split; [reflexivity|]. split; [|split; [|reflexivity]].
  - eexists _, (py "##c"). split; [|split; [|reflexivity]].
    + unfold cover_image. cbn [at_path].
      eexists. split; [eapply first_child_here; reflexivity|].
      eexists. split; [eapply first_child_here; reflexivity|].
      eexists. split.
      { exists [leaf "book-title" (Some "T"%string)], [].
        split; [reflexivity|]. split; [reflexivity|].
        intros y [<-|[]]. discriminate. }
      eexists. split; [eapply first_child_here; reflexivity|]. reflexivity.
    + split; [discriminate|]. right. split; [now left|reflexivity].
  - exists (mkElement (py "binary") [(py "id", py "#c")]
              (Some (py "aGk=")) None []).
    split; [|reflexivity].
    exists (firstn 6 (iter doc_double_hash)), [].
    split; [reflexivity|]. split; [split; reflexivity|].
    intros y Hy [Hname Hid]. cbv in Hy.
    repeat (destruct Hy as [<-|Hy]; [discriminate Hname || discriminate Hid|]).
    exact Hy.
Qed.

(** C7, amended.  The cover reference is the [href] attribute of
    description/title-info/coverpage/image, unprefixed or else in the XLink
    namespace, without its leading ['#'] characters, all of them.  The
    record's cover is decided by the first [binary] element in document
    order whose [id] equals the reference: its trimmed text decoded from
    base64.  The cover is [None] when there is no reference, when the
    reference is empty, when no binary has that id and when decoding raises;
    the function returns a record in every case. *)
Theorem cover_is_resolved_or_absent
  (ET_parse : pystr -> result Element)
  (b64decode : pystr -> result (list byte)) (path : pystr) (root : Element)
  (Hroot : ET_parse path = Returned root) :
  exists info,
    parse_fb2_book_info ET_parse b64decode path = Returned info
    /\ ((forall cid, ~ cover_reference root cid) -> cover_bytes info = None)
    /\ (forall cid,
          cover_reference root cid ->
          (cid = [] -> cover_bytes info = None)
          /\ (cid <> [] ->
              ((forall e, In e (iter root) -> ~ binary_with_id cid e) ->
               cover_bytes info = None)
              /\ (forall b,
                    first_such (binary_with_id cid) (iter root) b ->
                    cover_bytes info =
                      match b64decode (strip (_elem_text b)) with
                      | Returned bytes =>
                          if truthy (strip (_elem_text b))
                          then Some bytes else None
                      | Raised => None
                      end))).
Proof.
  destruct (parse_returns ET_parse b64decode path) as [info Hinfo].
  exists info. split; [exact Hinfo|].
  destruct (cover_of_parse _ _ _ _ _ Hroot Hinfo)
    as [(cid0 & Href & Hcover)|[Hnone Hcover]].
  - split; [intros Hno; destruct (Hno _ Href)|].
    intros cid Hcid. rewrite (cover_reference_unique _ _ _ Hcid Href).
    rewrite Hcover. clear Hcover Hcid cid. split.
    + intros ->. reflexivity.
    + intros Hcid. destruct cid0 as [|c cid]; [congruence|]. cbn [truthy].
      split.
      * apply find_cover_no_binary.
      * intros b Hb. rewrite (find_cover_first _ _ _ _ Hb).
        destruct (truthy (strip (_elem_text b)));
          now destruct (b64decode (strip (_elem_text b))).
  - split; [intros _; exact Hcover|].
    intros cid Hcid. destruct (Hnone _ Hcid).
Qed.

Lemma cover_is_resolved_or_absent_witness :
  exists info,
    parse_fb2_book_info (fun _ => Returned doc_with_cover) decode_hi
      (py "c.fb2") = Returned info
    /\ cover_bytes info = Some [x68; x69]%byte.
Proof.
  destruct (cover_is_resolved_or_absent
              (fun _ => Returned doc_with_cover) decode_hi
              (py "c.fb2") doc_with_cover eq_refl)
    as [info [Hinfo [_ Hcover]]].
  exists info. split; [exact Hinfo|].
  assert (Href : cover_reference doc_with_cover (py "cover.jpg")).
  { eexists _, (py "#cover.jpg"). split; [|split].
    - unfold cover_image. cbn [at_path].
      eexists. split; [eapply first_child_here; reflexivity|].
      eexists. split; [eapply first_child_here; reflexivity|].
      eexists. split.
      { exists [leaf "book-title" (Some "T"%string)], [].
        split; [reflexivity|]. split; [reflexivity|].
        intros y [<-|[]]. discriminate. }
      eexists. split; [eapply first_child_here; reflexivity|]. reflexivity.
    - split; [discriminate|]. right. split; [now left|reflexivity].
    - split; [now exists 1%nat|discriminate]. }
  destruct (Hcover _ Href) as [_ Hfound].
  destruct (Hfound ltac:(discriminate)) as [_ Hfirst].
  rewrite (Hfirst (mkElement (py "binary") [(py "id", py "cover.jpg")]
                     (Some (py "aGk=")) None [])).
  - reflexivity.
  - eexists (firstn 9 (iter doc_with_cover)), [].
    split; [reflexivity|]. split; [split; reflexivity|].
    intros y Hy [Hname Hid]. cbv in Hy.
    repeat (destruct Hy as [<-|Hy]; [discriminate Hname || discriminate Hid|]).
    exact Hy.
Defined.

(* ================================================================== *)
(** * Slices, trimming and [rfind] *)
(* ================================================================== *)

Import Reader.

Lemma len_nonneg {A : Type} (s : list A) : 0 <= len s.
Proof. unfold len. lia. Qed.

Lemma len_app {A : Type} (s t : list A) : len (s ++ t) = len s + len t.
Proof. unfold len. rewrite length_app. lia. Qed.

Lemma min_int_spec a b : min_int a b = Z.min a b.
Proof. unfold min_int. destruct (Z.ltb_spec b a); lia. Qed.

Lemma max_int_spec a b : max_int a b = Z.max a b.
Proof. unfold max_int. destruct (Z.ltb_spec a b); lia. Qed.

Lemma adjust_slice_id n i : 0 <= i <= n -> adjust_slice n i = i.
Proof. unfold adjust_slice. intros H. destruct (Z.ltb_spec i 0); lia. Qed.

Lemma slice_len {A : Type} (s : list A) i j :
  0 <= i <= j -> j <= len s -> len (slice s i j) = j - i.
Proof.
  intros Hij Hj. unfold slice.
  rewrite !adjust_slice_id by lia.
  unfold len in *. rewrite length_firstn, length_skipn. lia.
Qed.

Lemma In_firstn {A : Type} n (l : list A) x : In x (firstn n l) -> In x l.
Proof.
  intros H. rewrite <- (firstn_skipn n l). apply in_or_app. now left.
Qed.

Lemma In_skipn {A : Type} n (l : list A) x : In x (skipn n l) -> In x l.
Proof.
  intros H. rewrite <- (firstn_skipn n l). apply in_or_app. now right.
Qed.

Lemma slice_In {A : Type} (s : list A) i j x :
  In x (slice s i j) -> In x s.
Proof.
  unfold slice. intros H.
  apply In_firstn in H. now apply In_skipn in H.
Qed.

Lemma lstrip_length s : (List.length (lstrip s) <= List.length s)%nat.
Proof.
  induction s as [|c s IH]; simpl; [lia|].
  destruct (isspace c); simpl; lia.
Qed.

Lemma strip_len_le s : len (strip s) <= len s.
Proof.
  unfold strip, rstrip, len.
  rewrite length_rev.
  pose proof (lstrip_length (rev (lstrip s))) as H1.
  rewrite length_rev in H1.
  pose proof (lstrip_length s). lia.
Qed.

Lemma lstrip_no_space s :
  (forall c, In c s -> isspace c = false) -> lstrip s = s.
Proof.
  destruct s as [|c s]; [reflexivity|].
  intros H. simpl. now rewrite (H c (or_introl eq_refl)).
Qed.

Lemma strip_no_space s :
  (forall c, In c s -> isspace c = false) -> strip s = s.
Proof.
  intros H. unfold strip, rstrip.
  rewrite (lstrip_no_space s H), lstrip_no_space.
  - apply rev_involutive.
  - intros c Hc. apply H. now apply in_rev.
Qed.

Lemma char_at_In text k c : char_at text k = Some c -> In c text.
Proof.
  unfold char_at. destruct (k <? 0); [discriminate|]. apply nth_error_In.
Qed.

Lemma char_at_cons c s k : 0 < k -> char_at (c :: s) k = char_at s (k - 1).
Proof.
  intros Hk. unfold char_at.
  destruct (Z.ltb_spec k 0), (Z.ltb_spec (k - 1) 0); try lia.
  replace (Z.to_nat k) with (S (Z.to_nat (k - 1))) by lia. reflexivity.
Qed.

(** The scan returns [best] when no position of the window holds [ch], and
    the last such position otherwise; [k] is where [s] starts in the whole
    string. *)
Lemma rfind_scan_spec ch s : forall k lo hi best,
  let r := rfind_scan ch s k lo hi best in
  (r = best
   /\ forall j, k <= j -> lo <= j < hi -> char_at s (j - k) <> Some ch)
  \/ (k <= r /\ lo <= r < hi
      /\ char_at s (r - k) = Some ch
      /\ forall j, r < j -> lo <= j < hi -> char_at s (j - k) <> Some ch).
Proof.
  induction s as [|c s IH]; intros k lo hi best r.
  - left. split; [reflexivity|]. intros j _ _. unfold char_at.
    destruct (j - k <? 0); [discriminate|]. now destruct (Z.to_nat (j - k)).
  - subst r. cbn [rfind_scan].
    set (best' := if (lo <=? k) && (k <? hi) && Ascii.eqb c ch
                  then k else best).
    destruct (IH (k + 1) lo hi best') as [[Hr Hnone]|(Hk & Hr & Hc & Hlast)].
    + rewrite Hr. subst best'.
      destruct ((lo <=? k) && (k <? hi) && Ascii.eqb c ch) eqn:E.
      * right. apply andb_true_iff in E as [E Ec].
        apply andb_true_iff in E as [E1 E2].
        apply Ascii.eqb_eq in Ec. subst c.
        repeat split; try lia.
        -- replace (k - k) with 0 by lia. reflexivity.
        -- intros j Hj Hw. rewrite char_at_cons by lia.
           replace (j - k - 1) with (j - (k + 1)) by lia.
           apply Hnone; lia.
      * left. split; [reflexivity|]. intros j Hj Hw.
        destruct (Z.eq_dec j k) as [->|Hne].
        -- replace (k - k) with 0 by lia. cbn. intros [= ->].
           rewrite Ascii.eqb_refl, andb_true_r in E.
           apply andb_false_iff in E as [E|E]; lia.
        -- rewrite char_at_cons by lia.
           replace (j - k - 1) with (j - (k + 1)) by lia.
           apply Hnone; lia.
    + right. repeat split; try lia.
      * rewrite char_at_cons by lia.
        now replace (rfind_scan ch s (k + 1) lo hi best' - k - 1)
          with (rfind_scan ch s (k + 1) lo hi best' - (k + 1)) by lia.
      * intros j Hj Hw. rewrite char_at_cons by lia.
        replace (j - k - 1) with (j - (k + 1)) by lia.
        apply Hlast; lia.
Qed.

(** [rfind] on a window inside the string. *)
Lemma rfind_spec ch text lo hi :
  0 <= lo -> 0 <= hi <= len text ->
  (rfind ch text lo hi = -1
   /\ forall j, lo <= j < hi -> char_at text j <> Some ch)
  \/ (lo <= rfind ch text lo hi < hi
      /\ char_at text (rfind ch text lo hi) = Some ch
      /\ forall j, rfind ch text lo hi < j < hi -> char_at text j <> Some ch).
Proof.
  intros Hlo Hhi. unfold rfind.
  assert (Ea : adjust_start (len text) lo = lo).
  { unfold adjust_start. destruct (Z.ltb_spec lo 0); lia. }
  assert (Eb : adjust_end (len text) hi = hi).
  { unfold adjust_end.
    destruct (Z.ltb_spec (len text) hi), (Z.ltb_spec hi 0); lia. }
  rewrite Ea, Eb.
  destruct (rfind_scan_spec ch text 0 lo hi (-1))
    as [[Hr Hnone]|(Hk & Hr & Hc & Hlast)].
  - left. split; [exact Hr|]. intros j Hj.
    specialize (Hnone j ltac:(lia) Hj). now rewrite Z.sub_0_r in Hnone.
  - right. rewrite Z.sub_0_r in Hc. split; [exact Hr|]. split; [exact Hc|].
    intros j Hj. specialize (Hlast j ltac:(lia) ltac:(lia)).
    now rewrite Z.sub_0_r in Hlast.
Qed.

(* ================================================================== *)
(** * os.path *)
(* ================================================================== *)

Lemma slice_from_skipn {A : Type} (s : list A) i :
  0 <= i <= len s -> slice_from s i = skipn (Z.to_nat i) s.
Proof.
  intros Hi. unfold slice_from, slice.
  rewrite !adjust_slice_id by lia.
  apply firstn_all2. unfold len in *. rewrite length_skipn. lia.
Qed.

Lemma slice_to_firstn {A : Type} (s : list A) j :
  0 <= j <= len s -> slice_to s j = firstn (Z.to_nat j) s.
Proof.
  intros Hj. unfold slice_to, slice.
  pose proof (len_nonneg s).
  rewrite !adjust_slice_id by lia.
  rewrite Z.sub_0_r. reflexivity.
Qed.

Lemma rfind_whole_range ch p :
  -1 <= rfind ch p 0 (len p) < len p.
Proof.
  pose proof (len_nonneg p).
  destruct (rfind_spec ch p 0 (len p) ltac:(lia) ltac:(lia))
    as [[Hr _]|(Hr & _)]; lia.
Qed.

(** The base name is what follows the last ['/']: a suffix of the path
    without any ['/']. *)
Lemma basename_spec p :
  (exists dir, p = dir ++ OsPath.basename p)
  /\ ~ In "/"%char (OsPath.basename p).
Proof.
  unfold OsPath.basename.
  pose proof (rfind_whole_range "/"%char p) as Hr.
  pose proof (len_nonneg p) as Hn.
  set (r := rfind "/"%char p 0 (len p)) in *.
  rewrite slice_from_skipn by lia. split.
  - exists (firstn (Z.to_nat (r + 1)) p). symmetry. apply firstn_skipn.
  - intros Hin. apply In_nth_error in Hin as [k Hk].
    rewrite nth_error_skipn in Hk.
    assert (Hc : char_at p (r + 1 + Z.of_nat k) = Some "/"%char).
    { unfold char_at. destruct (Z.ltb_spec (r + 1 + Z.of_nat k) 0); [lia|].
      now replace (Z.to_nat (r + 1 + Z.of_nat k))
        with (Z.to_nat (r + 1) + k)%nat by lia. }
    assert (Hlt : r + 1 + Z.of_nat k < len p).
    { assert (Hsome : nth_error p (Z.to_nat (r + 1) + k) <> None)
        by congruence.
      apply nth_error_Some in Hsome. unfold len. lia. }
    destruct (rfind_spec "/"%char p 0 (len p) ltac:(lia) ltac:(lia))
      as [[_ Hnone]|(_ & _ & Hlast)].
    + apply (Hnone (r + 1 + Z.of_nat k)); [lia|exact Hc].
    + apply (Hlast (r + 1 + Z.of_nat k)); [fold r; lia|exact Hc].
Qed.

(** [splitext] cuts the path in two: root and extension give the path
    back, and the extension is empty or starts at a dot. *)
Lemma splitext_spec p :
  fst (OsPath.splitext p) ++ snd (OsPath.splitext p) = p
  /\ (snd (OsPath.splitext p) = []
      \/ exists r, snd (OsPath.splitext p) = "."%char :: r).
Proof.
  unfold OsPath.splitext.
  pose proof (rfind_whole_range "/"%char p) as Hs.
  pose proof (rfind_whole_range "."%char p) as Hd.
  pose proof (len_nonneg p) as Hn.
  set (sepIndex := rfind "/"%char p 0 (len p)) in *.
  destruct ((sepIndex <? rfind "."%char p 0 (len p))
            && OsPath.has_non_dot p 0 (sepIndex + 1)
                 (rfind "."%char p 0 (len p))) eqn:E; cbn [fst snd].
  - apply andb_true_iff in E as [E _]. apply Z.ltb_lt in E.
    set (dotIndex := rfind "."%char p 0 (len p)) in *.
    rewrite slice_to_firstn, slice_from_skipn by lia.
    split; [apply firstn_skipn|]. right.
    destruct (rfind_spec "."%char p 0 (len p) ltac:(lia) ltac:(lia))
      as [[Hr _]|(_ & Hc & _)]; [fold dotIndex in Hr; lia|].
    fold dotIndex in Hc. unfold char_at in Hc.
    destruct (Z.ltb_spec dotIndex 0); [lia|].
    rewrite <- (Nat.add_0_r (Z.to_nat dotIndex)), <- nth_error_skipn in Hc.
    destruct (skipn (Z.to_nat dotIndex) p) as [|c r]; [discriminate|].
    cbn in Hc. injection Hc as ->. now exists r.
  - split; [apply app_nil_r|now left].
Qed.









(** ** The title *)





(* ================================================================== *)
(** * Binary64 arithmetic *)
(* ================================================================== *)

(** The literals are the binary64 values nearest to 0.8 and to 1, and
    they are well formed. *)
Example literals_are_binary64 :
  PyFloat.truediv 4 5 = PyFloat.f0_8
  /\ PyFloat.truediv 1 1 = PyFloat.f1_0
  /\ PyFloat.of_int 1 = PyFloat.f1_0
  /\ valid_binary PyFloat.prec PyFloat.emax PyFloat.f0_8 = true
  /\ valid_binary PyFloat.prec PyFloat.emax PyFloat.f1_0 = true.
Proof. repeat split; reflexivity. Qed.

Example split_margin_samples :
  map split_margin [1; 5; 60; 99; 100; 3700] = [0; 4; 48; 79; 80; 2960].
Proof. reflexivity. Qed.

Lemma fexp_binary64 x :
  fexp PyFloat.prec PyFloat.emax x = Z.max (x - 53) (-1074).
Proof. reflexivity. Qed.

(** The number of binary digits brackets the number. *)
Lemma digits2_pos_bounds p :
  2 ^ (Z.pos (digits2_pos p) - 1) <= Z.pos p < 2 ^ Z.pos (digits2_pos p).
Proof.
  induction p as [p IH|p IH|]; cbn [digits2_pos].
  - rewrite Pos2Z.inj_succ. change (Z.pos p~1) with (2 * Z.pos p + 1).
    replace (Z.succ (Z.pos (digits2_pos p)) - 1)
      with (Z.succ (Z.pos (digits2_pos p) - 1)) by lia.
    rewrite !Z.pow_succ_r by lia. lia.
  - rewrite Pos2Z.inj_succ. change (Z.pos p~0) with (2 * Z.pos p).
    replace (Z.succ (Z.pos (digits2_pos p)) - 1)
      with (Z.succ (Z.pos (digits2_pos p) - 1)) by lia.
    rewrite !Z.pow_succ_r by lia. lia.
  - cbn. lia.
Qed.

Lemma digits2_pos_le p k :
  0 <= k -> Z.pos p < 2 ^ k -> Z.pos (digits2_pos p) <= k.
Proof.
  intros Hk Hp. destruct (digits2_pos_bounds p) as [Hlo _].
  destruct (Z.le_gt_cases (Z.pos (digits2_pos p)) k) as [H|H]; [exact H|].
  exfalso.
  assert (2 ^ k <= 2 ^ (Z.pos (digits2_pos p) - 1))
    by (apply Z.pow_le_mono_r; lia).
  lia.
Qed.

Lemma digits2_pos_ge p k :
  2 ^ k <= Z.pos p -> k < Z.pos (digits2_pos p).
Proof.
  intros Hp. destruct (digits2_pos_bounds p) as [_ Hhi].
  destruct (Z.lt_ge_cases k (Z.pos (digits2_pos p))) as [H|H]; [exact H|].
  exfalso.
  assert (2 ^ Z.pos (digits2_pos p) <= 2 ^ k)
    by (apply Z.pow_le_mono_r; lia).
  lia.
Qed.

(** Shifting a mantissa to the left. *)
Lemma iter_xO_value p k :
  Z.pos (Pos.iter xO p k) = Z.pos p * 2 ^ Z.pos k.
Proof.
  induction k as [|k IH] using Pos.peano_ind.
  - cbn [Pos.iter]. change (Z.pos p~0) with (2 * Z.pos p).
    change (2 ^ 1) with 2. lia.
  - rewrite Pos.iter_succ.
    change (Z.pos (Pos.iter xO p k)~0) with (2 * Z.pos (Pos.iter xO p k)).
    rewrite IH, Pos2Z.inj_succ, Z.pow_succ_r by lia. lia.
Qed.

Lemma iter_xO_digits p k :
  digits2_pos (Pos.iter xO p k) = (digits2_pos p + k)%positive.
Proof.
  induction k as [|k IH] using Pos.peano_ind.
  - cbn [Pos.iter digits2_pos]. lia.
  - rewrite Pos.iter_succ. cbn [digits2_pos]. rewrite IH. lia.
Qed.

(** Shifting a rounding record to the right divides its mantissa. *)
Lemma shr_1_m mrs :
  0 <= shr_m mrs -> shr_m (shr_1 mrs) = shr_m mrs / 2.
Proof.
  destruct mrs as [m r s]. cbn [shr_m shr_1]. intros Hm.
  destruct m as [|[p|p|]|p]; cbn [shr_m].
  - reflexivity.
  - change (Z.pos p~1) with (2 * Z.pos p + 1).
    apply Z.div_unique with 1; lia.
  - change (Z.pos p~0) with (2 * Z.pos p).
    apply Z.div_unique with 0; lia.
  - reflexivity.
  - lia.
Qed.

Lemma iter_shr_1_m n : forall mrs,
  0 <= shr_m mrs ->
  shr_m (iter_pos shr_1 n mrs) = shr_m mrs / 2 ^ Z.pos n.
Proof.
  assert (Hpos : forall k, 0 < 2 ^ Z.pos k)
    by (intros; apply Z.pow_pos_nonneg; lia).
  assert (Hdiv : forall a k, 0 <= a -> 0 <= a / 2 ^ Z.pos k)
    by (intros; apply Z.div_pos; [lia|apply Hpos]).
  induction n as [n IH|n IH|]; intros mrs Hm; cbn [iter_pos].
  - assert (H1 : 0 <= shr_m (shr_1 mrs))
      by (rewrite shr_1_m by lia; apply Z.div_pos; lia).
    rewrite IH by (rewrite IH by lia; now apply Hdiv).
    rewrite IH, shr_1_m by lia.
    rewrite !Z.div_div by (try lia; apply Hpos).
    f_equal. change (Z.pos n~1) with (2 * Z.pos n + 1).
    replace (2 * Z.pos n + 1) with (1 + Z.pos n + Z.pos n) by lia.
    rewrite !Z.pow_add_r by lia. lia.
  - rewrite IH by (rewrite IH by lia; now apply Hdiv).
    rewrite IH by lia.
    rewrite !Z.div_div by (try lia; apply Hpos).
    f_equal. change (Z.pos n~0) with (2 * Z.pos n).
    replace (2 * Z.pos n) with (Z.pos n + Z.pos n) by lia.
    rewrite !Z.pow_add_r by lia. lia.
  - now rewrite shr_1_m.
Qed.

(** [shr]: the mantissa is divided by two to the shift, the exponent grows
    by the shift, and nothing happens for a shift that is not positive. *)
Lemma shr_spec mrs e n :
  0 <= shr_m mrs ->
  shr_m (fst (shr mrs e n)) = shr_m mrs / 2 ^ Z.max 0 n
  /\ snd (shr mrs e n) = e + Z.max 0 n.
Proof.
  intros Hm. unfold shr. destruct n as [|p|p]; cbn [fst snd Z.max].
  - cbn. rewrite Z.div_1_r. lia.
  - rewrite iter_shr_1_m by exact Hm.
    replace (Z.max 0 (Z.pos p)) with (Z.pos p) by lia. split; reflexivity.
  - replace (Z.max 0 (Z.neg p)) with 0 by lia.
    rewrite Z.pow_0_r, Z.div_1_r. lia.
Qed.

Lemma round_nearest_even_range m l :
  m <= round_nearest_even m l <= m + 1.
Proof.
  unfold round_nearest_even. destruct l as [|[]]; try lia.
  destruct (Z.even m); lia.
Qed.

Lemma shr_record_of_loc_m m l : shr_m (shr_record_of_loc m l) = m.
Proof. now destruct l as [|[]]. Qed.

Lemma loc_of_shr_record_of_loc m l :
  loc_of_shr_record (shr_record_of_loc m l) = l.
Proof. now destruct l as [|[]]. Qed.

(** What [binary_round_aux] computes on a positive mantissa: a first shift
    to the target exponent, a rounding that adds at most one, and a second
    shift that absorbs a carry. *)
Lemma binary_round_aux_fexp s P e l :
  let n1 := Z.max 0 (fexp PyFloat.prec PyFloat.emax (Z.pos (digits2_pos P) + e)
                     - e) in
  let m1 := Z.pos P / 2 ^ n1 in
  let e1 := e + n1 in
  exists m2,
    m1 <= m2 <= m1 + 1
    /\ (n1 = 0 -> m2 = round_nearest_even (Z.pos P) l)
    /\ let n2 := Z.max 0 (fexp PyFloat.prec PyFloat.emax (Zdigits2 m2 + e1)
                          - e1) in
       let m3 := m2 / 2 ^ n2 in
       let e3 := e1 + n2 in
       binary_round_aux PyFloat.prec PyFloat.emax s (Z.pos P) e l
       = match m3 with
         | Z0 => S754_zero s
         | Z.pos m => if e3 <=? 971 then S754_finite s m e3
                      else S754_infinity s
         | Z.neg _ => S754_nan
         end.
Proof.
  cbv zeta. unfold binary_round_aux, shr_fexp. cbn [Zdigits2].
  remember (fexp PyFloat.prec PyFloat.emax (Z.pos (digits2_pos P) + e) - e)
    as x1 eqn:Ex1.
  pose proof (shr_spec (shr_record_of_loc (Z.pos P) l) e x1) as H1.
  rewrite shr_record_of_loc_m in H1. specialize (H1 ltac:(lia)).
  assert (Hl1 : Z.max 0 x1 = 0 ->
                fst (shr (shr_record_of_loc (Z.pos P) l) e x1)
                = shr_record_of_loc (Z.pos P) l).
  { intros Hn. unfold shr. destruct x1 as [|p|p]; try reflexivity. lia. }
  destruct (shr (shr_record_of_loc (Z.pos P) l) e x1) as [mrs' e'].
  cbn [fst snd] in H1, Hl1. destruct H1 as [Hm1 He1]. subst e'.
  set (m2 := round_nearest_even (shr_m mrs') (loc_of_shr_record mrs')).
  pose proof (round_nearest_even_range (shr_m mrs') (loc_of_shr_record mrs'))
    as Hm2. fold m2 in Hm2. rewrite Hm1 in Hm2.
  assert (Hm1pos : 0 <= Z.pos P / 2 ^ Z.max 0 x1).
  { apply Z.div_pos; [lia|]. apply Z.pow_pos_nonneg; lia. }
  exists m2. split; [exact Hm2|]. split.
  { intros Hn. subst m2. rewrite (Hl1 Hn).
    now rewrite shr_record_of_loc_m, loc_of_shr_record_of_loc. }
  remember (fexp PyFloat.prec PyFloat.emax (Zdigits2 m2 + (e + Z.max 0 x1))
            - (e + Z.max 0 x1)) as x2 eqn:Ex2.
  pose proof (shr_spec (shr_record_of_loc m2 loc_Exact) (e + Z.max 0 x1) x2)
    as H2.
  rewrite shr_record_of_loc_m in H2. specialize (H2 ltac:(lia)).
  destruct (shr (shr_record_of_loc m2 loc_Exact) (e + Z.max 0 x1) x2)
    as [mrs'' e''].
  cbn [fst snd] in H2. destruct H2 as [Hm3 He3]. rewrite Hm3, He3.
  reflexivity.
Qed.

(** The same with the exponent function of binary64 written out. *)
Lemma binary_round_aux_pos s P e l :
  let n1 := Z.max 0 (Z.max (Z.pos (digits2_pos P) + e - 53) (-1074) - e) in
  let m1 := Z.pos P / 2 ^ n1 in
  let e1 := e + n1 in
  exists m2,
    m1 <= m2 <= m1 + 1
    /\ (n1 = 0 -> m2 = round_nearest_even (Z.pos P) l)
    /\ let n2 := Z.max 0 (Z.max (Zdigits2 m2 + e1 - 53) (-1074) - e1) in
       let m3 := m2 / 2 ^ n2 in
       let e3 := e1 + n2 in
       binary_round_aux PyFloat.prec PyFloat.emax s (Z.pos P) e l
       = match m3 with
         | Z0 => S754_zero s
         | Z.pos m => if e3 <=? 971 then S754_finite s m e3
                      else S754_infinity s
         | Z.neg _ => S754_nan
         end.
Proof. exact (binary_round_aux_fexp s P e l). Qed.

(** [float(c)] for a positive integer below 2^52: the mantissa is [c]
    shifted to 53 digits. *)
Lemma of_int_normal c :
  let d := Z.pos (digits2_pos c) in
  d < 53 ->
  PyFloat.of_int (Z.pos c)
  = S754_finite false (Pos.iter xO c (Z.to_pos (53 - d))) (d - 53).
Proof.
  intros d Hd. unfold PyFloat.of_int, binary_normalize, binary_round.
  rewrite Z.add_0_r, fexp_binary64. fold d.
  replace (Z.max (d - 53) (-1074)) with (d - 53) by (subst d; lia).
  unfold shl_align.
  destruct (d - 53 - 0) as [|p|p] eqn:Ed; try lia.
  replace (Z.to_pos (53 - d)) with p by lia.
  set (P := Pos.iter xO c p).
  assert (HdP : Z.pos (digits2_pos P) = 53).
  { subst P. rewrite iter_xO_digits. subst d. lia. }
  destruct (binary_round_aux_pos false P (d - 53) loc_Exact)
    as (m2 & Hr & Hexact & Hres).
  cbv zeta in Hr, Hexact, Hres.
  rewrite HdP in Hr, Hexact, Hres.
  assert (Hn1 : Z.max 0 (Z.max (53 + (d - 53) - 53) (-1074) - (d - 53)) = 0)
    by (subst d; lia).
  rewrite Hn1 in Hr, Hexact, Hres.
  specialize (Hexact eq_refl). cbn [round_nearest_even] in Hexact.
  subst m2. cbn [Zdigits2] in Hres. rewrite HdP in Hres.
  assert (Hn2 : Z.max 0 (Z.max (53 + (d - 53 + 0) - 53) (-1074)
                         - (d - 53 + 0)) = 0)
    by (subst d; lia).
  rewrite Hn2, Z.pow_0_r, Z.div_1_r, !Z.add_0_r in Hres.
  rewrite Hres.
  destruct (Z.leb_spec (d - 53) 971); [reflexivity|lia].
Qed.

(* ================================================================== *)
(** * The search margin [int(capacity * 0.8)] *)
(* ================================================================== *)

(** The sign of a rounded value is the sign that was asked for. *)
Lemma binary_round_aux_sign s m e l :
  signed_as s (binary_round_aux PyFloat.prec PyFloat.emax s m e l).
Proof.
  unfold binary_round_aux.
  destruct (shr_fexp _ _ m e l) as [mrs e'].
  destruct (shr_fexp _ _ _ e' loc_Exact) as [mrs' e''].
  destruct (shr_m mrs'); cbn; [reflexivity| |exact I].
  now destruct (e'' <=? _).
Qed.

Lemma of_int_sign c : 0 < c -> signed_as false (PyFloat.of_int c).
Proof.
  intros Hc. destruct c as [|p|p]; try lia.
  unfold PyFloat.of_int, binary_normalize, binary_round.
  destruct (shl_align _ _ _) as [mz ez]. apply binary_round_aux_sign.
Qed.

Lemma to_int_nonneg x : signed_as false x -> 0 <= PyFloat.to_int x.
Proof.
  destruct x as [s|s| |s m e]; unfold PyFloat.to_int, signed_as;
    try (intros; lia).
  intros ->. unfold cond_Zopp. destruct (Z.leb_spec 0 e).
  - apply Z.mul_nonneg_nonneg; [lia|]. apply Z.pow_nonneg. lia.
  - apply Z.div_pos; [lia|]. apply Z.pow_pos_nonneg; lia.
Qed.

Lemma split_margin_nonneg c : 0 < c -> 0 <= split_margin c.
Proof.
  intros Hc. unfold split_margin. apply to_int_nonneg.
  pose proof (of_int_sign c Hc) as H.
  unfold PyFloat.mul, PyFloat.f0_8.
  destruct (PyFloat.of_int c) as [s|s| |s m e]; cbn in H |- *;
    try subst s; try reflexivity.
  apply binary_round_aux_sign.
Qed.

(* ================================================================== *)
(** * The splitting loop *)
(* ================================================================== *)

(** One turn of the loop, in the specification's words. *)
Lemma split_step_spec text capacity i :
  0 < capacity -> 0 <= i < len text ->
  let m := split_margin capacity in
  let e := Z.min (i + capacity) (len text) in
  let k := snd (split_step text capacity i) in
  fst (split_step text capacity i) = strip (slice text i k)
  /\ i < k <= e
  /\ ((last_space text (i + m) e k /\ i < k)
      \/ ((forall k', last_space text (i + m) e k' -> k' <= i) /\ k = e)).
Proof.
  intros Hcap Hi m e k.
  pose proof (split_margin_nonneg capacity Hcap) as Hm. fold m in Hm.
  subst k. unfold split_step. rewrite !min_int_spec. fold m. fold e.
  set (lo := Z.min (len text) (i + m)).
  cbn [fst snd].
  assert (He : i < e <= len text) by (subst e; lia).
  assert (Hlo : 0 <= lo) by (subst lo; lia).
  destruct (rfind_spec " "%char text lo e Hlo ltac:(lia))
    as [[Hr Hnone]|(Hr & Hc & Hlast)].
  - rewrite Hr, Z.eqb_refl. cbn [orb].
    split; [reflexivity|]. split; [lia|]. right. split; [|reflexivity].
    intros k' (Hk' & Hc' & _). exfalso. apply (Hnone k'); [subst lo; lia|].
    exact Hc'.
  - set (r := rfind " "%char text lo e) in *.
    destruct (Z.eqb_spec r (-1)) as [E|_]; [subst lo; lia|]. cbn [orb].
    destruct (Z.leb_spec r i) as [Hle|Hgt].
    + split; [reflexivity|]. split; [lia|]. right. split; [|reflexivity].
      intros k' (Hk' & Hc' & _).
      destruct (Z.le_gt_cases k' r) as [?|Hlt]; [lia|].
      exfalso. apply (Hlast k'); [lia|exact Hc'].
    + split; [reflexivity|]. split; [lia|]. left.
      split; [|exact Hgt]. split; [subst lo; lia|]. split; [exact Hc|].
      exact Hlast.
Qed.

(** With one turn of fuel per remaining character the loop ends, and its
    pages are the pages of the specification's algorithm. *)
Lemma split_loop_paged text capacity :
  0 < capacity ->
  forall fuel i acc,
    0 <= i -> len text - i <= Z.of_nat fuel ->
    exists rest,
      split_loop fuel text capacity i acc = Some (acc ++ rest)
      /\ paged (split_margin capacity) text capacity i rest.
Proof.
  intros Hcap. induction fuel as [|fuel IH]; intros i acc Hi Hfuel.
  - exists []. cbn [split_loop].
    destruct (Z.ltb_spec i (len text)); [lia|].
    rewrite app_nil_r. split; [reflexivity|]. now apply paged_end.
  - cbn [split_loop]. destruct (Z.ltb_spec i (len text)) as [Hlt|Hge].
    + destruct (split_step_spec text capacity i Hcap ltac:(lia))
        as (Hpage & Hk & Hcut).
      destruct (split_step text capacity i) as [page k]. cbn [fst snd] in *.
      destruct (IH k (acc ++ [page]) ltac:(lia) ltac:(lia))
        as (rest & Hloop & Hrest).
      exists (page :: rest). rewrite Hloop, <- app_assoc. cbn [app].
      split; [reflexivity|]. subst page.
      destruct Hcut as [[Hsp Hik]|[Hno ->]].
      * now apply paged_space.
      * now apply paged_forced.
    + exists []. rewrite app_nil_r. split; [reflexivity|]. now apply paged_end.
Qed.

(** The pages of the algorithm are fixed by the text, the capacity and the
    margin. *)
Lemma paged_functional margin text capacity i p1 :
  paged margin text capacity i p1 ->
  forall p2, paged margin text capacity i p2 -> p1 = p2.
Proof.
  induction 1 as [i Hi|i k rest Hi Hsp Hik Hrest IH|i rest Hi Hno Hrest IH];
    intros p2 H2; inversion H2; subst; try lia.
  - reflexivity.
  - assert (k = k0).
    { destruct Hsp as (Hk & Hc & Hl).
      match goal with H : last_space _ _ _ k0 |- _ =>
        destruct H as (Hk0 & Hc0 & Hl0) end.
      destruct (Z.lt_total k k0) as [Hlt|[Heq|Hgt]]; [|exact Heq|].
      - exfalso. apply (Hl k0); [lia|exact Hc0].
      - exfalso. apply (Hl0 k); [lia|exact Hc]. }
    subst k0. f_equal. now apply IH.
  - match goal with H : forall k, last_space _ _ _ k -> _ |- _ =>
      specialize (H k Hsp) end. lia.
  - specialize (Hno _ ltac:(eassumption)). lia.
  - f_equal. now apply IH.
Qed.

(** No page is longer than the capacity. *)
Lemma paged_page_len margin text capacity i pages :
  0 < capacity -> 0 <= i ->
  paged margin text capacity i pages ->
  Forall (fun p => len p <= capacity) pages.
Proof.
  intros Hcap Hi H. induction H as [i Hn|i k rest Hn Hsp Hik Hrest IH
                                    |i rest Hn Hno Hrest IH].
  - constructor.
  - constructor; [|apply IH; lia].
    destruct Hsp as (Hk & _).
    pose proof (strip_len_le (slice text i k)).
    rewrite slice_len in * by lia. lia.
  - constructor; [|apply IH; lia].
    pose proof (strip_len_le (slice text i (Z.min (i + capacity) (len text)))).
    rewrite slice_len in * by lia. lia.
Qed.

(** A text without whitespace whose remaining length is a multiple of the
    capacity is cut into pages of exactly the capacity. *)
Lemma paged_no_whitespace margin text capacity i pages :
  (forall c, In c text -> isspace c = false) ->
  0 < capacity -> 0 <= i <= len text ->
  (len text - i) mod capacity = 0 ->
  paged margin text capacity i pages ->
  Forall (fun p => len p = capacity) pages
  /\ len pages * capacity = len text - i.
Proof.
  intros Hws Hcap Hi Hmod H. revert Hi Hmod.
  induction H as [i Hn|i k rest Hn Hsp Hik Hrest IH
                  |i rest Hn Hno Hrest IH]; intros Hi Hmod.
  - split; [constructor|]. unfold len at 1. cbn [List.length]. lia.
  - exfalso. destruct Hsp as (_ & Hc & _).
    apply char_at_In in Hc. apply Hws in Hc. discriminate.
  - assert (Hq : capacity <= len text - i).
    { apply Z.mod_divide in Hmod; [|lia]. destruct Hmod as [q Hq].
      assert (0 < q) by nia. nia. }
    replace (Z.min (i + capacity) (len text)) with (i + capacity) in * by lia.
    destruct IH as [IH1 IH2]; [lia| |].
    { replace (len text - (i + capacity))
        with (len text - i + (-1) * capacity) by lia.
      now rewrite Z.mod_add by lia. }
    split.
    + constructor; [|exact IH1].
      rewrite strip_no_space.
      * rewrite slice_len; lia.
      * intros c Hc. apply Hws. now apply slice_In in Hc.
    + unfold len in *. cbn [List.length]. rewrite Nat2Z.inj_succ. lia.
Qed.

(** The arithmetic behind the margin: a 53-digit mantissa [u = c * A] times
    the mantissa of 0.8, cut to 53 digits and rounded, has [4c/5] as its
    integer part. *)
Lemma margin_arith c A u q m1 m2 k :
  8 <= A -> u = c * A -> 2 ^ 52 <= u < 2 ^ 53 ->
  q = c * 4 / 5 ->
  (k = 0 \/ k = 1) ->
  m1 = u * 7205759403792794 / 2 ^ (52 + k) ->
  m1 <= m2 <= m1 + 1 ->
  m2 / (A * 2 ^ (1 - k)) = q.
Proof.
  intros HA Hu Hur Hq Hk Hm1 Hm2.
  assert (Hq5 : 5 * q <= 4 * c <= 5 * q + 4).
  { pose proof (Z.div_mod (c * 4) 5 ltac:(lia)) as Hd.
    pose proof (Z.mod_pos_bound (c * 4) 5 ltac:(lia)). subst q. lia. }
  set (w := q * A).
  assert (Hw : 5 * w <= 4 * u <= 5 * w + 4 * A) by (subst w u; nia).
  assert (Hdiv : 2 ^ (52 + k) * m1 <= u * 7205759403792794
                 < 2 ^ (52 + k) * (m1 + 1)).
  { pose proof (Z.div_mod (u * 7205759403792794) (2 ^ (52 + k))
                  ltac:(destruct Hk; subst k; cbn; lia)) as Hd.
    pose proof (Z.mod_pos_bound (u * 7205759403792794) (2 ^ (52 + k))
                  ltac:(destruct Hk; subst k; cbn; lia)).
    rewrite <- Hm1 in Hd. lia. }
  symmetry. apply Z.div_unique with (m2 - A * 2 ^ (1 - k) * q).
  - left. replace (A * 2 ^ (1 - k) * q) with (2 ^ (1 - k) * w)
      by (subst w; ring).
    change (2 ^ 52) with 4503599627370496 in Hur.
    change (2 ^ 53) with 9007199254740992 in Hur.
    destruct Hk; subst k.
    + change (2 ^ (52 + 0)) with 4503599627370496 in Hdiv.
      change (2 ^ (1 - 0)) with 2. lia.
    + change (2 ^ (52 + 1)) with 9007199254740992 in Hdiv.
      change (2 ^ (1 - 1)) with 1. lia.
  - ring.
Qed.

(** [int(capacity * 0.8)] is the integer part of four fifths of the
    capacity, for every capacity below 2^50. *)
Lemma split_margin_floor c :
  0 < c < 2 ^ 50 -> split_margin c = c * 4 / 5.
Proof.
  intros [Hc0 Hc]. destruct c as [|p|p]; try lia.
  set (d := Z.pos (digits2_pos p)).
  assert (Hd : 1 <= d <= 50).
  { split; [subst d; lia|]. apply digits2_pos_le; [lia|exact Hc]. }
  unfold split_margin. rewrite (of_int_normal p) by (fold d; lia). fold d.
  unfold PyFloat.mul, PyFloat.f0_8, SFmul. cbn [xorb].
  set (mx := Pos.iter xO p (Z.to_pos (53 - d))).
  set (A := 2 ^ (53 - d)).
  assert (Hmx : Z.pos mx = Z.pos p * A).
  { subst mx A. rewrite iter_xO_value, Z2Pos.id by lia. reflexivity. }
  assert (HA : 8 <= A).
  { subst A. change 8 with (2 ^ 3). apply Z.pow_le_mono_r; lia. }
  assert (Hu : 2 ^ 52 <= Z.pos p * A < 2 ^ 53).
  { destruct (digits2_pos_bounds p) as [Hlo Hhi]. fold d in Hlo, Hhi.
    assert (E52 : 2 ^ 52 = 2 ^ (d - 1) * A).
    { subst A. rewrite <- Z.pow_add_r by lia. f_equal. lia. }
    assert (E53 : 2 ^ 53 = 2 ^ d * A).
    { subst A. rewrite <- Z.pow_add_r by lia. f_equal. lia. }
    rewrite E52, E53. split; nia. }
  set (P := (mx * 7205759403792794)%positive).
  assert (HP : Z.pos P = Z.pos p * A * 7205759403792794).
  { subst P. rewrite Pos2Z.inj_mul, Hmx. reflexivity. }
  set (D := Z.pos (digits2_pos P)).
  assert (HD : 105 <= D <= 106).
  { change (2 ^ 52) with 4503599627370496 in Hu.
    change (2 ^ 53) with 9007199254740992 in Hu.
    split.
    - assert (104 < D); [|lia]. apply digits2_pos_ge. rewrite HP.
      change (2 ^ 104) with (4503599627370496 * 4503599627370496). nia.
    - apply digits2_pos_le; [lia|]. rewrite HP.
      change (2 ^ 106) with (9007199254740992 * 9007199254740992). nia. }
  destruct (binary_round_aux_pos false P (d - 53 + -53) loc_Exact)
    as (m2 & Hr & _ & Hres).
  cbv zeta in Hr, Hres. fold D in Hr, Hres.
  replace (Z.max 0 (Z.max (D + (d - 53 + -53) - 53) (-1074)
                    - (d - 53 + -53)))
    with (D - 53) in Hr, Hres by lia.
  set (m1 := Z.pos P / 2 ^ (D - 53)) in *.
  destruct (digits2_pos_bounds P) as [HPlo HPhi]. fold D in HPlo, HPhi.
  assert (Hpow : 0 < 2 ^ (D - 53)) by (apply Z.pow_pos_nonneg; lia).
  assert (Hm1 : 2 ^ 52 <= m1 < 2 ^ 53).
  { subst m1. split.
    - apply Z.div_le_lower_bound; [exact Hpow|].
      rewrite <- Z.pow_add_r by lia.
      now replace (D - 53 + 52) with (D - 1) by lia.
    - apply Z.div_lt_upper_bound; [exact Hpow|].
      rewrite <- Z.pow_add_r by lia.
      now replace (D - 53 + 53) with D by lia. }
  change (2 ^ 52) with 4503599627370496 in Hm1.
  change (2 ^ 53) with 9007199254740992 in Hm1.
  assert (Hdm2 : 0 < Zdigits2 m2 <= 54).
  { destruct m2 as [|m2|m2]; try lia. cbn [Zdigits2]. split; [lia|].
    apply digits2_pos_le; [lia|].
    change (2 ^ 54) with 18014398509481984. lia. }
  set (e1 := d - 53 + -53 + (D - 53)) in *.
  set (n2 := Z.max 0 (Z.max (Zdigits2 m2 + e1 - 53) (-1074) - e1)) in *.
  assert (Hn2 : n2 = 0 \/ n2 = 1) by (subst n2 e1; lia).
  assert (Hm3 : 0 < m2 / 2 ^ n2).
  { apply Z.div_str_pos. destruct Hn2 as [-> | ->]; cbn; lia. }
  rewrite Hres.
  destruct (m2 / 2 ^ n2) as [|m3|m3] eqn:Em3; try lia.
  destruct (Z.leb_spec (e1 + n2) 971) as [_|Hbig]; [|subst e1; lia].
  unfold PyFloat.to_int, cond_Zopp.
  destruct (Z.leb_spec 0 (e1 + n2)) as [Hpos|_]; [subst e1; lia|].
  rewrite <- Em3, Z.div_div by
    (try (apply Z.pow_pos_nonneg; subst e1; lia);
     destruct Hn2 as [-> | ->]; cbn; lia).
  rewrite <- Z.pow_add_r by (subst e1; lia).
  replace (n2 + - (e1 + n2)) with ((53 - d) + (1 - (D - 105)))
    by (subst e1; lia).
  rewrite Z.pow_add_r by lia. fold A.
  apply (margin_arith (Z.pos p) A (Z.pos p * A) _ m1 m2 (D - 105));
    try reflexivity; try lia.
  subst m1. rewrite HP. f_equal. f_equal. lia.
Qed.

(* ================================================================== *)
(** * The paginator *)
(* ================================================================== *)

Lemma estimate_capacity_ge_60 v : 60 <= estimate_capacity v.
Proof.
  unfold estimate_capacity. rewrite !max_int_spec.
  set (a := Z.max 1 (viewport_width v) / Z.max 1 (averageCharWidth v)).
  set (b := Z.max 1 (viewport_height v) / Z.max 1 (lineSpacing v)).
  nia.
Qed.

Lemma estimate_capacity_formula v :
  0 < viewport_width v -> 0 < viewport_height v ->
  0 < averageCharWidth v -> 0 < lineSpacing v ->
  estimate_capacity v
  = Z.max 20 (viewport_width v / averageCharWidth v)
    * Z.max 3 (viewport_height v / lineSpacing v).
Proof.
  intros. unfold estimate_capacity. rewrite !max_int_spec.
  rewrite (Z.max_r 1 (viewport_width v)), (Z.max_r 1 (viewport_height v)),
    (Z.max_r 1 (averageCharWidth v)), (Z.max_r 1 (lineSpacing v)) by lia.
  reflexivity.
Qed.

Lemma paged_nonempty margin text capacity pages :
  0 < len text -> paged margin text capacity 0 pages -> pages <> [].
Proof. intros Hn H. inversion H; subst; [lia|discriminate|discriminate]. Qed.

Lemma truthy_len s : truthy s = true -> 0 < len s.
Proof. destruct s; [discriminate|]. unfold len. cbn [List.length]. lia. Qed.

Section SessionFacts.

Variable abspath : pystr -> pystr.

Lemma pages_update ratio s :
  pages (update_page_and_progress_labels abspath ratio s) = pages s.
Proof.
  unfold update_page_and_progress_labels.
  destruct (negb (is_reading s) || _); [reflexivity|].
  destruct (truthy_opt (current_book_path s)); [|reflexivity].
  now destruct (current_book_path s).
Qed.

Lemma index_update ratio s :
  current_page_index (update_page_and_progress_labels abspath ratio s)
  = current_page_index s.
Proof.
  unfold update_page_and_progress_labels.
  destruct (negb (is_reading s) || _); [reflexivity|].
  destruct (truthy_opt (current_book_path s)); [|reflexivity].
  now destruct (current_book_path s).
Qed.

Lemma pages_show s : pages (show_current_page abspath s) = pages s.
Proof.
  unfold show_current_page. destruct (pages s) eqn:E.
  - now rewrite pages_update.
  - rewrite pages_update. cbn. exact E.
Qed.

Lemma index_show s :
  pages s <> [] ->
  current_page_index (show_current_page abspath s)
  = Z.max 0 (Z.min (current_page_index s) (len (pages s) - 1)).
Proof.
  intros Hne. unfold show_current_page. destruct (pages s) eqn:E; [congruence|].
  rewrite index_update. cbn [current_page_index set_reader_text
                               set_current_page_index].
  now rewrite max_int_spec, min_int_spec.
Qed.

(** What [paginate_current_text] leaves in [pages]: one empty page for an
    empty text, and the pages of the splitting algorithm otherwise. *)
Lemma paginate_pages v ratio s extra :
  exists s',
    paginate_current_text abspath (List.length (text_of s) + extra) v ratio s
    = Some s'
    /\ ((truthy_opt (current_full_text s) = false /\ pages s' = [[]])
        \/ (truthy_opt (current_full_text s) = true
            /\ pages s' <> []
            /\ paged (split_margin (estimate_capacity v)) (text_of s)
                 (estimate_capacity v) 0 (pages s'))).
Proof.
  unfold paginate_current_text.
  destruct (truthy_opt (current_full_text s)) eqn:Ht; cbn [negb].
  - pose proof (estimate_capacity_ge_60 v) as Hcap.
    fold (text_of s).
    destruct (split_loop_paged (text_of s) (estimate_capacity v) ltac:(lia)
                (List.length (text_of s) + extra) 0 [] ltac:(lia)
                ltac:(unfold len; lia))
      as (pages0 & Hloop & Hpaged).
    rewrite Hloop. cbn [app].
    assert (Htext : truthy (text_of s) = true).
    { unfold text_of. destruct (current_full_text s); [exact Ht|discriminate]. }
    assert (Hne : pages0 <> []).
    { exact (paged_nonempty _ _ _ _ (truthy_len _ Htext) Hpaged). }
    destruct pages0 as [|p ps]; [congruence|].
    eexists. split; [reflexivity|]. right. split; [reflexivity|].
    rewrite pages_show. cbn [pages set_current_page_index set_pages].
    split; [discriminate|exact Hpaged].
  - eexists. split; [reflexivity|]. left. split; [reflexivity|].
    now rewrite pages_show.
Qed.



End SessionFacts.

(** ** The claims about the splitting *)

(** C3 fails as stated: a text of 1000 characters without any space, cut
    with capacity 100, can give a page shorter than 100, because trimming
    removes a line feed at the edge of a page. *)
Lemma split_pages_trims_line_feed :
  len text_newline_first = 1000
  /\ existsb (Ascii.eqb " "%char) text_newline_first = false
  /\ estimate_capacity (mkReaderView 160 80 8 16) = 100
  /\ exists page rest,
       split_loop 1000 text_newline_first 100 0 [] = Some (page :: rest)
       /\ len page = 99.
Proof.
  split; [reflexivity|]. split; [reflexivity|]. split; [reflexivity|].
  eexists. eexists. split; [vm_compute; reflexivity|reflexivity].
Qed.

(** C3, amended.  For every text and every capacity above zero the loop
    ends and emits the pages of the specification's algorithm: from [i = 0],
    while [i] is below the length, with [end = min(i + capacity, length)]
    it cuts at the last space of [[i + int(capacity * 0.8), end)] when that
    space lies beyond [i] and at [end] otherwise, emits the trimmed text
    up to the cut and goes on from the cut; [int(capacity * 0.8)], computed
    in binary64, is the integer part of four fifths of the capacity for
    every capacity below 2^50.  A text of 1000 characters without
    whitespace, cut with capacity 100, gives ten pages of exactly 100
    characters. *)
Theorem split_loop_follows_algorithm
  (text : pystr) (capacity : Z) (Hcap : 0 < capacity) :
  (exists pages,
     split_loop (List.length text) text capacity 0 [] = Some pages
     /\ paged (split_margin capacity) text capacity 0 pages
     /\ (capacity < 2 ^ 50 -> paged (capacity * 4 / 5) text capacity 0 pages))
  /\ (capacity < 2 ^ 50 -> split_margin capacity = capacity * 4 / 5)
  /\ (len text = 1000 -> capacity = 100 ->
      (forall c, In c text -> isspace c = false) ->
      exists pages,
        split_loop (List.length text) text capacity 0 [] = Some pages
        /\ len pages = 10
        /\ Forall (fun p => len p = 100) pages).
Proof.
  destruct (split_loop_paged text capacity Hcap (List.length text) 0 []
              ltac:(lia) ltac:(unfold len; lia))
    as (pages & Hloop & Hpaged).
  cbn [app] in Hloop.
  split.
  { exists pages. split; [exact Hloop|]. split; [exact Hpaged|].
    intros Hlt. now rewrite <- (split_margin_floor capacity) by lia. }
  split; [intros Hlt; apply split_margin_floor; lia|].
  intros Hlen -> Hws. exists pages. split; [exact Hloop|].
  destruct (paged_no_whitespace _ text 100 0 pages Hws ltac:(lia)
              ltac:(lia) ltac:(now rewrite Hlen) Hpaged) as [Hall Hcount].
  split; [lia|exact Hall].
Qed.

Lemma split_loop_follows_algorithm_witness :
  exists pages,
    split_loop 1000 (repeat "a"%char 1000) 100 0 [] = Some pages
    /\ len pages = 10
    /\ Forall (fun p => len p = 100) pages.
Proof.
  refine (proj2 (proj2 (split_loop_follows_algorithm (repeat "a"%char 1000)
                          100 ltac:(lia))) eq_refl eq_refl _).
  intros c Hc. apply repeat_spec in Hc. now subst c.
Defined.

(** C4.  For positive viewport metrics the capacity is
    [max(20, width // avg_char_w) * max(3, height // line_h)], so it is at
    least 60; each turn of the loop moves the position strictly forward,
    and with one turn per character of the text the loop ends. *)
Theorem capacity_is_positive_and_loop_ends
  (v : ReaderView) (text : pystr)
  (Hw : 0 < viewport_width v) (Hh : 0 < viewport_height v)
  (Ha : 0 < averageCharWidth v) (Hl : 0 < lineSpacing v) :
  estimate_capacity v
  = Z.max 20 (viewport_width v / averageCharWidth v)
    * Z.max 3 (viewport_height v / lineSpacing v)
  /\ 60 <= estimate_capacity v
  /\ (forall i, 0 <= i < len text ->
        i < snd (split_step text (estimate_capacity v) i))
  /\ exists pages,
       split_loop (List.length text) text (estimate_capacity v) 0 []
       = Some pages.
Proof.
  pose proof (estimate_capacity_ge_60 v) as Hcap.
  split; [now apply estimate_capacity_formula|]. split; [exact Hcap|].
  split.
  - intros i Hi.
    now destruct (split_step_spec text (estimate_capacity v) i ltac:(lia) Hi)
      as (_ & Hk & _).
  - destruct (split_loop_paged text (estimate_capacity v) ltac:(lia)
                (List.length text) 0 [] ltac:(lia) ltac:(unfold len; lia))
      as (pages & Hloop & _).
    now exists pages.
Qed.

Lemma capacity_is_positive_and_loop_ends_witness :
  estimate_capacity wide_view = 3700
  /\ exists pages,
       split_loop 12 (py "hello reader") (estimate_capacity wide_view) 0 []
       = Some pages.
Proof.
  destruct (capacity_is_positive_and_loop_ends wide_view (py "hello reader")
              ltac:(cbn; lia) ltac:(cbn; lia) ltac:(cbn; lia) ltac:(cbn; lia))
    as (Hf & _ & _ & Hp).
  split; [exact Hf|exact Hp].
Defined.

(** ** The claims about the page set *)

(** C5 fails as stated: a page can be empty although the text is not.  With
    a capacity of 60 a run of 200 spaces between two letters gives four
    pages, two of them empty. *)
Lemma pagination_emits_empty_pages :
  exists s',
    paginate_current_text abspath_id 202 small_view PyFloat.f0_0
      (session_on text_long_gap) = Some s'
    /\ pages s' = [py "a"; []; []; py "b"].
Proof. eexists. split; [vm_compute; reflexivity|reflexivity]. Qed.

(** C5, amended.  Pagination always ends with a page list of at least one
    page, in text order; the pages are trimmed and may be empty; an empty or
    absent full text gives exactly one empty page. *)
Theorem page_set_is_never_empty
  (abspath : pystr -> pystr) (v : ReaderView) (ratio : PyFloat.float)
  (s : MainWindow) (extra : nat) :
  exists s',
    paginate_current_text abspath (List.length (text_of s) + extra) v ratio s
    = Some s'
    /\ 1 <= len (pages s')
    /\ (truthy_opt (current_full_text s) = false -> pages s' = [[]]).
Proof.
  destruct (paginate_pages abspath v ratio s extra)
    as (s' & Hs' & [[Ht Hp]|(Ht & Hne & _)]);
    exists s'; (split; [exact Hs'|]).
  - rewrite Hp. split; [unfold len; cbn [List.length]; lia|reflexivity].
  - split; [|congruence].
    destruct (pages s'); [congruence|].
    unfold len. cbn [List.length]. lia.
Qed.

Lemma page_set_is_never_empty_witness :
  exists s',
    paginate_current_text abspath_id 0 small_view ratio_half (session_on [])
    = Some s'
    /\ pages s' = [[]].
Proof.
  destruct (page_set_is_never_empty abspath_id small_view ratio_half
              (session_on []) 0) as (s' & Hs' & _ & Hempty).
  exists s'. split; [exact Hs'|]. now apply Hempty.
Defined.

(** C10.  For every text and all viewport metrics, every page that
    pagination emits is at most as long as the computed capacity. *)
Theorem pages_fit_capacity
  (abspath : pystr -> pystr) (v : ReaderView) (ratio : PyFloat.float)
  (s : MainWindow) (extra : nat) :
  exists s',
    paginate_current_text abspath (List.length (text_of s) + extra) v ratio s
    = Some s'
    /\ Forall (fun p => len p <= estimate_capacity v) (pages s').
Proof.
  pose proof (estimate_capacity_ge_60 v) as Hcap.
  destruct (paginate_pages abspath v ratio s extra)
    as (s' & Hs' & [[Ht Hp]|(Ht & Hne & Hpaged)]);
    exists s'; (split; [exact Hs'|]).
  - rewrite Hp. constructor; [|constructor].
    change (0 <= estimate_capacity v). lia.
  - eapply paged_page_len; [| |exact Hpaged]; lia.
Qed.

(* ================================================================== *)
(** * Page index, ratio and navigation *)
(* ================================================================== *)

Lemma dict_get_set_same {V : Type} (d : dict V) k v :
  dict_get (dict_set d k v) k = Some v.
Proof.
  induction d as [|[k' v'] d IH]; cbn [dict_set dict_get].
  - now rewrite pystr_eqb_refl.
  - destruct (pystr_eqb k' k) eqn:E; cbn [dict_get]; now rewrite E.
Qed.

Lemma dict_set_idem {V : Type} (d : dict V) k v :
  dict_set (dict_set d k v) k v = dict_set d k v.
Proof.
  induction d as [|[k' v'] d IH]; cbn [dict_set].
  - now rewrite pystr_eqb_refl.
  - destruct (pystr_eqb k' k) eqn:E; cbn [dict_set]; rewrite E;
      [reflexivity|now rewrite IH].
Qed.

(** The clamped ratio is 0.0, 1.0, or the ratio itself when it lies
    strictly between them. *)
Lemma clamp_ratio_cases r :
  clamp_ratio r = PyFloat.f0_0
  \/ clamp_ratio r = PyFloat.f1_0
  \/ (clamp_ratio r = r
      /\ SFltb PyFloat.f0_0 r = true /\ SFltb r PyFloat.f1_0 = true).
Proof.
  unfold clamp_ratio, PyFloat.max, PyFloat.min.
  destruct (SFltb r PyFloat.f1_0) eqn:E1.
  - destruct (SFltb PyFloat.f0_0 r) eqn:E0; [|now left].
    right. right. repeat split; assumption.
  - right. left. reflexivity.
Qed.

Lemma clamp_ratio_idem r : clamp_ratio (clamp_ratio r) = clamp_ratio r.
Proof.
  destruct (clamp_ratio_cases r) as [E|[E|(E & E0 & E1)]]; rewrite E;
    try reflexivity.
  unfold clamp_ratio, PyFloat.max, PyFloat.min. now rewrite E1, E0.
Qed.



Lemma set_index_same s :
  set_current_page_index s (current_page_index s) = s.
Proof. now destruct s. Qed.

Section NavigationFacts.

Variable abspath : pystr -> pystr.

Lemma show_nonempty s :
  pages s <> [] ->
  let total := len (pages s) in
  let idx := Z.max 0 (Z.min (current_page_index s) (total - 1)) in
  show_current_page abspath s
  = update_page_and_progress_labels abspath (ratio_of_index idx total)
      (set_reader_text (set_current_page_index s idx)
         (nth (Z.to_nat idx) (pages s) [])).
Proof.
  intros Hne total idx. unfold show_current_page.
  cbn [pages set_current_page_index].
  rewrite max_int_spec, min_int_spec. fold total. fold idx.
  destruct (pages s) eqn:E; [congruence|]. reflexivity.
Qed.

Lemma update_reading ratio s path :
  is_reading s = true -> pages s <> [] ->
  current_book_path s = Some path -> truthy path = true ->
  update_page_and_progress_labels abspath ratio s
  = set_book_progress s
      (dict_set (book_progress s) (abspath path) (clamp_ratio ratio)).
Proof.
  intros Hr Hne Hpath Ht. unfold update_page_and_progress_labels.
  assert (Hlen : (len (pages s) =? 0) = false).
  { destruct (pages s); [congruence|]. unfold len. cbn [List.length].
    apply Z.eqb_neq. lia. }
  rewrite Hr, Hlen. cbn [negb andb orb]. rewrite Hlen.
  rewrite Hpath. cbn [truthy_opt]. now rewrite Ht.
Qed.

Lemma update_idem ratio s :
  update_page_and_progress_labels abspath ratio
    (update_page_and_progress_labels abspath ratio s)
  = update_page_and_progress_labels abspath ratio s.
Proof.
  destruct s as [path bp rd txt pgs idx rt].
  unfold update_page_and_progress_labels.
  cbn [is_reading pages current_book_path book_progress].
  destruct (negb rd || _) eqn:E1.
  - cbn [is_reading pages]. now rewrite E1.
  - destruct path as [path|]; cbn [truthy_opt].
    + destruct (truthy path) eqn:Ht.
      * unfold set_book_progress.
        cbn [is_reading pages current_book_path book_progress
             current_full_text current_page_index reader_text].
        rewrite E1. cbn [truthy_opt]. rewrite Ht.
        now rewrite dict_set_idem.
      * cbn [is_reading pages current_book_path]. rewrite E1.
        cbn [truthy_opt]. now rewrite Ht.
    + cbn [is_reading pages current_book_path]. now rewrite E1.
Qed.

Lemma clamp_index_idem k n :
  Z.max 0 (Z.min (Z.max 0 (Z.min k (n - 1))) (n - 1))
  = Z.max 0 (Z.min k (n - 1)).
Proof. lia. Qed.

Lemma is_reading_update ratio s :
  is_reading (update_page_and_progress_labels abspath ratio s) = is_reading s.
Proof.
  unfold update_page_and_progress_labels.
  destruct (negb (is_reading s) || _); [reflexivity|].
  destruct (truthy_opt (current_book_path s)); [|reflexivity].
  now destruct (current_book_path s).
Qed.

Lemma reader_text_update ratio s :
  reader_text (update_page_and_progress_labels abspath ratio s)
  = reader_text s.
Proof.
  unfold update_page_and_progress_labels.
  destruct (negb (is_reading s) || _); [reflexivity|].
  destruct (truthy_opt (current_book_path s)); [|reflexivity].
  now destruct (current_book_path s).
Qed.

Lemma is_reading_show s :
  is_reading (show_current_page abspath s) = is_reading s.
Proof.
  unfold show_current_page. destruct (pages s);
    now rewrite is_reading_update.
Qed.

Lemma show_empty s :
  pages s = [] -> show_current_page abspath s = set_reader_text s [].
Proof.
  intros E. unfold show_current_page. rewrite E.
  unfold update_page_and_progress_labels. cbn [pages set_reader_text].
  rewrite E. cbn [len List.length Z.of_nat Z.eqb negb].
  now rewrite andb_false_r, orb_true_r.
Qed.

(** Showing a page that is already shown changes nothing. *)
Lemma show_idem s :
  show_current_page abspath (show_current_page abspath s)
  = show_current_page abspath s.
Proof.
  destruct (pages s) as [|p ps] eqn:E.
  - rewrite (show_empty s E).
    rewrite (show_empty (set_reader_text s []) E). now destruct s.
  - assert (Hne : pages s <> []) by congruence.
    pose proof (show_nonempty s Hne) as H1. cbv zeta in H1.
    set (total := len (pages s)) in *.
    set (idx := Z.max 0 (Z.min (current_page_index s) (total - 1))) in *.
    set (s1 := set_reader_text (set_current_page_index s idx)
                 (nth (Z.to_nat idx) (pages s) [])) in *.
    assert (Hp2 : pages (show_current_page abspath s) = pages s)
      by apply pages_show.
    assert (Hne2 : pages (show_current_page abspath s) <> [])
      by (rewrite Hp2; exact Hne).
    pose proof (show_nonempty (show_current_page abspath s) Hne2) as H2.
    cbv zeta in H2. rewrite Hp2 in H2. fold total in H2.
    assert (Hi : current_page_index (show_current_page abspath s) = idx).
    { rewrite index_show by exact Hne. reflexivity. }
    rewrite Hi in H2.
    assert (Hidx : Z.max 0 (Z.min idx (total - 1)) = idx)
      by (subst idx; apply clamp_index_idem).
    rewrite Hidx in H2.
    rewrite H2, H1.
    assert (Hs1 :
      set_reader_text
        (set_current_page_index
           (update_page_and_progress_labels abspath
              (ratio_of_index idx total) s1) idx)
        (nth (Z.to_nat idx) (pages s) [])
      = update_page_and_progress_labels abspath
          (ratio_of_index idx total) s1).
    { pose proof (index_update abspath (ratio_of_index idx total) s1) as Ei.
      pose proof (reader_text_update (ratio_of_index idx total) s1) as Er.
      destruct (update_page_and_progress_labels abspath
                  (ratio_of_index idx total) s1).
      cbn in Ei, Er. subst. reflexivity. }
    rewrite Hs1. apply update_idem.
Qed.

End NavigationFacts.




Lemma digits2_pos_mono a b :
  Z.pos a <= Z.pos b -> Z.pos (digits2_pos a) <= Z.pos (digits2_pos b).
Proof.
  intros Hab. apply digits2_pos_le; [lia|].
  destruct (digits2_pos_bounds b) as [_ Hb]. lia.
Qed.

Lemma div_eucl_div_mod a b : Z.div_eucl a b = (a / b, a mod b).
Proof. unfold Z.div, Z.modulo. now destruct (Z.div_eucl a b). Qed.

(** The mantissa of [float(c)] for [0 < c < 2^52]. *)
Lemma of_int_mantissa c :
  let d := Z.pos (digits2_pos c) in
  d < 53 ->
  let m := Pos.iter xO c (Z.to_pos (53 - d)) in
  Z.pos m = Z.pos c * 2 ^ (53 - d)
  /\ Z.pos (digits2_pos m) = 53
  /\ 2 ^ 52 <= Z.pos m < 2 ^ 53.
Proof.
  intros d Hd m.
  assert (Hm : Z.pos m = Z.pos c * 2 ^ (53 - d)).
  { subst m. rewrite iter_xO_value, Z2Pos.id by lia. reflexivity. }
  assert (Hdm : Z.pos (digits2_pos m) = 53).
  { subst m. rewrite iter_xO_digits. fold d.
    rewrite Pos2Z.inj_add, Z2Pos.id by lia. lia. }
  split; [exact Hm|]. split; [exact Hdm|].
  pose proof (digits2_pos_bounds m) as Hb. rewrite Hdm in Hb. exact Hb.
Qed.

(** [b / b] is 1.0. *)
Lemma truediv_self b :
  0 < b < 2 ^ 52 -> PyFloat.truediv b b = PyFloat.f1_0.
Proof.
  intros Hb. destruct b as [|p|p]; try lia.
  set (d := Z.pos (digits2_pos p)).
  assert (Hd : d < 53).
  { assert (d <= 52); [|lia]. apply digits2_pos_le; lia. }
  unfold PyFloat.truediv. rewrite (of_int_normal p) by exact Hd. fold d.
  destruct (of_int_mantissa p Hd) as (Hm & Hdm & Hr). fold d in Hm, Hdm, Hr.
  set (m := Pos.iter xO p (Z.to_pos (53 - d))) in *.
  unfold SFdiv, SFdiv_core_binary. cbn [Zdigits2]. rewrite Hdm.
  replace (53 + (d - 53) - (53 + (d - 53))) with 0 by lia.
  replace (d - 53 - (d - 53)) with 0 by lia.
  change (Z.min (fexp PyFloat.prec PyFloat.emax 0) 0) with (-53).
  change (0 - -53) with 53.
  rewrite Z.shiftl_mul_pow2 by lia.
  rewrite div_eucl_div_mod.
  rewrite (Z.mul_comm (Z.pos m)), Z.div_mul, Z.mod_mul by lia.
  assert (Hloc : new_location (Z.pos m) 0 = loc_Exact).
  { unfold new_location, new_location_even, new_location_odd.
    now destruct (Z.even (Z.pos m)). }
  rewrite Hloc. reflexivity.
Qed.

(** A positive finite value that is below 1.0, or 1.0 itself, is left as it
    is by the clamp. *)
Lemma clamp_ratio_fixed m e :
  e < -52 \/ (e = -52 /\ m = 4503599627370496%positive) ->
  clamp_ratio (S754_finite false m e) = S754_finite false m e.
Proof.
  intros [He|[-> ->]]; [|reflexivity].
  unfold clamp_ratio, PyFloat.max, PyFloat.min, PyFloat.f1_0, PyFloat.f0_0.
  assert (E1 : SFltb (S754_finite false m e)
                 (S754_finite false 4503599627370496 (-52)) = true).
  { unfold SFltb, SFcompare. now destruct (Z.compare_spec e (-52)); try lia. }
  rewrite E1. reflexivity.
Qed.

(** The ratio of a page index to the last index lies in [[0.0, 1.0]]: the
    clamp leaves it as it is. *)
Lemma truediv_clamped idx b :
  0 <= idx <= b -> 0 < b < 2 ^ 52 ->
  clamp_ratio (PyFloat.truediv idx b) = PyFloat.truediv idx b.
Proof.
  intros Hidx Hb.
  destruct (Z.eq_dec idx b) as [->|Hne];
    [rewrite truediv_self by exact Hb; reflexivity|].
  destruct b as [|pb|pb]; try lia.
  destruct idx as [|pa|pa]; try lia.
  { unfold PyFloat.truediv.
    set (db := Z.pos (digits2_pos pb)).
    assert (db < 53)
      by (assert (db <= 52); [apply digits2_pos_le; lia|lia]).
    rewrite (of_int_normal pb) by assumption. reflexivity. }
  set (da := Z.pos (digits2_pos pa)). set (db := Z.pos (digits2_pos pb)).
  assert (Hdb : db < 53)
    by (assert (db <= 52); [apply digits2_pos_le; lia|lia]).
  assert (Hdab : da <= db) by (apply digits2_pos_mono; lia).
  assert (Hda : da < 53) by lia.
  unfold PyFloat.truediv.
  rewrite (of_int_normal pa), (of_int_normal pb) by assumption.
  fold da. fold db.
  destruct (of_int_mantissa pa Hda) as (Hu & Hdu & Hur).
  destruct (of_int_mantissa pb Hdb) as (Hv & Hdv & Hvr).
  fold da in Hu, Hdu, Hur. fold db in Hv, Hdv, Hvr.
  set (u := Pos.iter xO pa (Z.to_pos (53 - da))) in *.
  set (v := Pos.iter xO pb (Z.to_pos (53 - db))) in *.
  change (2 ^ 52) with 4503599627370496 in Hur, Hvr.
  change (2 ^ 53) with 9007199254740992 in Hur, Hvr.
  unfold SFdiv, SFdiv_core_binary. cbn [Zdigits2 xorb]. rewrite Hdu, Hdv.
  rewrite fexp_binary64.
  replace (Z.min (Z.max (53 + (da - 53) - (53 + (db - 53)) - 53) (-1074))
             (da - 53 - (db - 53)))
    with (da - db - 53) by lia.
  replace (da - 53 - (db - 53) - (da - db - 53)) with 53 by lia.
  rewrite Z.shiftl_mul_pow2 by lia.
  change (2 ^ 53) with 9007199254740992.
  rewrite div_eucl_div_mod.
  set (q := Z.pos u * 9007199254740992 / Z.pos v).
  set (l := new_location (Z.pos v)
              ((Z.pos u * 9007199254740992) mod Z.pos v)).
  assert (Hq : Z.pos v * q <= Z.pos u * 9007199254740992
               < Z.pos v * (q + 1)).
  { pose proof (Z.div_mod (Z.pos u * 9007199254740992) (Z.pos v)
                  ltac:(lia)) as Hd.
    pose proof (Z.mod_pos_bound (Z.pos u * 9007199254740992) (Z.pos v)
                  ltac:(lia)).
    fold q in Hd. lia. }
  assert (Hqr : 4503599627370496 <= q < 18014398509481984) by nia.
  assert (Hsame : da = db -> q < 9007199254740992).
  { intros E. assert (Z.pos u < Z.pos v).
    { rewrite Hu, Hv, E.
      apply Z.mul_lt_mono_pos_r; [apply Z.pow_pos_nonneg; lia|lia]. }
    nia. }
  destruct q as [|P|P] eqn:EP; try lia.
  destruct (binary_round_aux_pos false P (da - db - 53) l)
    as (m2 & Hr & _ & Hres).
  cbv zeta in Hr, Hres.
  set (D := Z.pos (digits2_pos P)) in *.
  assert (HD : 53 <= D <= 54).
  { split.
    - assert (52 < D); [|lia]. apply digits2_pos_ge.
      change (2 ^ 52) with 4503599627370496. lia.
    - apply digits2_pos_le; [lia|].
      change (2 ^ 54) with 18014398509481984. lia. }
  assert (HD53 : da = db -> D = 53).
  { intros E. assert (D <= 53); [|lia]. apply digits2_pos_le; [lia|].
    change (2 ^ 53) with 9007199254740992. apply Hsame. exact E. }
  set (n1 := Z.max 0 (Z.max (D + (da - db - 53) - 53) (-1074)
                      - (da - db - 53))) in *.
  assert (Hn1 : n1 = D - 53) by (subst n1; lia).
  set (m1 := Z.pos P / 2 ^ n1) in *.
  assert (Hm1 : 4503599627370496 <= m1 < 9007199254740992).
  { destruct (digits2_pos_bounds P) as [Hlo Hhi]. fold D in Hlo, Hhi.
    subst m1. rewrite Hn1.
    assert (Hpow : 0 < 2 ^ (D - 53)) by (apply Z.pow_pos_nonneg; lia).
    split.
    - apply Z.div_le_lower_bound; [exact Hpow|].
      change 4503599627370496 with (2 ^ 52).
      rewrite <- Z.pow_add_r by lia.
      now replace (D - 53 + 52) with (D - 1) by lia.
    - apply Z.div_lt_upper_bound; [exact Hpow|].
      change 9007199254740992 with (2 ^ 53).
      rewrite <- Z.pow_add_r by lia.
      now replace (D - 53 + 53) with D by lia. }
  set (e1 := da - db - 53 + n1) in *.
  assert (He1 : e1 <= -53).
  { subst e1. rewrite Hn1.
    destruct (Z.eq_dec da db) as [E|E]; [rewrite (HD53 E); lia|lia]. }
  destruct m2 as [|M2|M2]; try lia. cbn [Zdigits2] in Hres.
  set (D2 := Z.pos (digits2_pos M2)) in *.
  assert (HD2 : 53 <= D2 <= 54).
  { split.
    - assert (52 < D2); [|lia]. apply digits2_pos_ge.
      change (2 ^ 52) with 4503599627370496. lia.
    - apply digits2_pos_le; [lia|].
      change (2 ^ 54) with 18014398509481984. lia. }
  set (n2 := Z.max 0 (Z.max (D2 + e1 - 53) (-1074) - e1)) in *.
  assert (Hn2 : n2 = D2 - 53) by (subst n2 e1; lia).
  assert (Hcarry : D2 = 54 -> Z.pos M2 = 9007199254740992).
  { intros E. assert (53 < D2) by lia.
    destruct (digits2_pos_bounds M2) as [Hlo _]. fold D2 in Hlo.
    rewrite E in Hlo. change (2 ^ (54 - 1)) with 9007199254740992 in Hlo.
    lia. }
  rewrite Hres.
  destruct (Z.eq_dec D2 54) as [E54|E53].
  - rewrite Hn2, E54, (Hcarry E54).
    change (9007199254740992 / 2 ^ (54 - 53)) with 4503599627370496.
    destruct (Z.leb_spec (e1 + (54 - 53)) 971); [|lia].
    apply clamp_ratio_fixed. lia.
  - replace n2 with 0 by lia. rewrite Z.pow_0_r, Z.div_1_r, Z.add_0_r.
    destruct (Z.leb_spec e1 971); [|lia].
    apply clamp_ratio_fixed. lia.
Qed.

Lemma ratio_of_index_clamped idx total :
  0 <= idx <= total - 1 -> 1 <= total <= 2 ^ 52 ->
  clamp_ratio (ratio_of_index idx total) = ratio_of_index idx total.
Proof.
  intros Hidx Htotal. unfold ratio_of_index.
  destruct (Z.eqb_spec total 1); [reflexivity|].
  apply truediv_clamped; lia.
Qed.

Section NavigationClaims.

Variable abspath : pystr -> pystr.

Lemma go_to_page_reading k s :
  is_reading s = true -> pages s <> [] ->
  go_to_page abspath k s
  = show_current_page abspath
      (set_current_page_index s (Z.max 0 (Z.min k (len (pages s) - 1)))).
Proof.
  intros Hr Hne. unfold go_to_page. rewrite Hr.
  assert (Hlen : (len (pages s) =? 0) = false).
  { destruct (pages s); [congruence|]. unfold len. cbn [List.length].
    apply Z.eqb_neq. lia. }
  rewrite Hlen. cbn [negb orb].
  now rewrite max_int_spec, min_int_spec.
Qed.

(** The progress stored by [show_current_page] in a reading session. *)
Lemma progress_show s path :
  is_reading s = true -> pages s <> [] ->
  current_book_path s = Some path -> truthy path = true ->
  dict_get (book_progress (show_current_page abspath s)) (abspath path)
  = Some (clamp_ratio
            (ratio_of_index
               (Z.max 0 (Z.min (current_page_index s) (len (pages s) - 1)))
               (len (pages s)))).
Proof.
  intros Hr Hne Hpath Ht.
  rewrite (show_nonempty abspath s Hne).
  rewrite (update_reading abspath _ _ path); try assumption.
  cbn [book_progress set_book_progress]. apply dict_get_set_same.
Qed.

Lemma len_pos_of_nonempty {A : Type} (l : list A) : l <> [] -> 1 <= len l.
Proof.
  destruct l; [congruence|]. intros _. unfold len. cbn [List.length]. lia.
Qed.

End NavigationClaims.

(** Outside the reading mode the navigation does nothing. *)
Lemma go_to_page_not_reading abspath k s :
  is_reading s = false -> go_to_page abspath k s = s.
Proof. intros H. unfold go_to_page. now rewrite H. Qed.

(** ** The claims about the page index *)

(** C8.  In a reading session with a page list, [go_to_page] clamps any
    integer into [[0, total - 1]], shows that page and recomputes the ratio
    as [index / (total - 1)], or 0.0 for a single page; the ratio is stored
    clamped into [[0.0, 1.0]], which changes nothing up to 2^52 pages.
    [go_next_page] and [go_prev_page] are [go_to_page] of the current index
    plus and minus one, and leave the state as it is on the last and on the
    first page.  Every integer index is accepted, and every ratio is
    clamped to 0.0, to 1.0 or kept when it lies between them. *)
Theorem go_to_page_clamps
  (abspath : pystr -> pystr) (s : MainWindow) (page_index : Z)
  (Hr : is_reading s = true) (Hp : pages s <> []) :
  let total := len (pages s) in
  let idx := Z.max 0 (Z.min page_index (total - 1)) in
  let s' := go_to_page abspath page_index s in
  0 <= idx <= total - 1
  /\ current_page_index s' = idx
  /\ pages s' = pages s
  /\ reader_text s' = nth (Z.to_nat idx) (pages s) []
  /\ (forall path,
        current_book_path s = Some path -> truthy path = true ->
        dict_get (book_progress s') (abspath path)
        = Some (clamp_ratio (ratio_of_index idx total)))
  /\ (total <= 2 ^ 52 ->
      clamp_ratio (ratio_of_index idx total) = ratio_of_index idx total)
  /\ go_next_page abspath s
     = go_to_page abspath (current_page_index s + 1) s
  /\ go_prev_page abspath s
     = go_to_page abspath (current_page_index s - 1) s
  /\ (idx = total - 1 -> go_next_page abspath s' = s')
  /\ (idx = 0 -> go_prev_page abspath s' = s')
  /\ (forall r,
        clamp_ratio r = PyFloat.f0_0
        \/ clamp_ratio r = PyFloat.f1_0
        \/ (clamp_ratio r = r
            /\ SFltb PyFloat.f0_0 r = true /\ SFltb r PyFloat.f1_0 = true)).
Proof.
  intros total idx s'.
  pose proof (len_pos_of_nonempty _ Hp) as Hlen. fold total in Hlen.
  assert (Hs' : s' = show_current_page abspath (set_current_page_index s idx))
    by (apply go_to_page_reading; assumption).
  clearbody s'.
  assert (Hpages : pages s' = pages s)
    by (rewrite Hs', pages_show; reflexivity).
  assert (Hidx : current_page_index s' = idx).
  { rewrite Hs', index_show by exact Hp.
    cbn [current_page_index pages set_current_page_index]. fold total.
    subst idx. lia. }
  assert (Hr' : is_reading s' = true)
    by (rewrite Hs', is_reading_show; exact Hr).
  assert (Hstay : go_to_page abspath idx s' = s').
  { rewrite go_to_page_reading by (rewrite ?Hpages; assumption).
    rewrite Hpages. fold total.
    replace (Z.max 0 (Z.min idx (total - 1))) with (current_page_index s')
      by (rewrite Hidx; subst idx; lia).
    rewrite set_index_same, Hs'. apply show_idem. }
  split; [subst idx; lia|]. split; [exact Hidx|]. split; [exact Hpages|].
  split.
  { rewrite Hs'.
    rewrite (show_nonempty abspath (set_current_page_index s idx) Hp).
    rewrite reader_text_update.
    cbn [reader_text set_reader_text current_page_index pages
         set_current_page_index].
    fold total. fold idx.
    now replace (Z.max 0 (Z.min idx (total - 1))) with idx
      by (subst idx; lia). }
  split.
  { intros path Hpath Ht. rewrite Hs'.
    rewrite (progress_show abspath (set_current_page_index s idx) path);
      try assumption.
    cbn [current_page_index pages set_current_page_index].
    fold total.
    now replace (Z.max 0 (Z.min idx (total - 1))) with idx
      by (subst idx; lia). }
  split; [intros Hbig; apply ratio_of_index_clamped; subst idx; lia|].
  split; [unfold go_next_page; now rewrite Hr|].
  split; [unfold go_prev_page; now rewrite Hr|].
  split; [|split; [|apply clamp_ratio_cases]].
  - intros Hlast. unfold go_next_page. rewrite Hr'. cbn [negb].
    transitivity (go_to_page abspath idx s'); [|exact Hstay].
    rewrite !go_to_page_reading by (rewrite ?Hpages; assumption).
    rewrite Hpages, Hidx. fold total. do 2 f_equal. lia.
  - intros Hfirst. unfold go_prev_page. rewrite Hr'. cbn [negb].
    transitivity (go_to_page abspath idx s'); [|exact Hstay].
    rewrite !go_to_page_reading by (rewrite ?Hpages; assumption).
    rewrite Hpages, Hidx. fold total. do 2 f_equal. lia.
Qed.

Lemma go_to_page_clamps_witness :
  current_page_index (go_to_page abspath_id 7 session_three_pages) = 2
  /\ go_next_page abspath_id (go_to_page abspath_id 7 session_three_pages)
     = go_to_page abspath_id 7 session_three_pages
  /\ current_page_index (go_to_page abspath_id (-4) session_three_pages) = 0.
Proof.
  pose proof (go_to_page_clamps abspath_id session_three_pages 7
                eq_refl ltac:(discriminate)) as H.
  pose proof (go_to_page_clamps abspath_id session_three_pages (-4)
                eq_refl ltac:(discriminate)) as H'.
  cbv zeta in H, H'.
  destruct H as (_ & Hidx & _ & _ & _ & _ & _ & _ & Hnext & _).
  destruct H' as (_ & Hidx' & _).
  split; [exact Hidx|]. split; [apply Hnext; reflexivity|exact Hidx'].
Defined.



